(** * The perk controller (server/src/controllers/perkController.js)

    A shallow embedding of the request handlers of the controller
    ([filterPerks], [getPerk], [getAllPerks], [createPerk], [updatePerk],
    [deletePerk]), of the validation schema [perkSchema], and of the two
    collaborators they call: the Joi validator and the Mongoose model
    [Perk].  Handlers are functions from the state of the world (the
    collection, its clock and the trace of the calls made to it) to a reply
    and a new state. *)

From Stdlib Require Import Ascii QArith.
From stdpp Require Import gmap strings list sorting pretty.

(** ** JSON values of a request body

    A request body, once parsed, is a JavaScript object: a list of keys and
    values in insertion order.  Numbers are kept as rationals; arrays and
    nested objects only matter here as "neither a string nor a number". *)

Inductive jval : Type :=
| JNull
| JBool (b : bool)
| JNum (q : Q)
| JStr (s : string)
| JComposite.

Definition object : Type := list (string * jval).

(** [o[k]]: the value stored under key [k], [None] standing for undefined. *)
Fixpoint get (k : string) (o : object) : option jval :=
  match o with
  | [] => None
  | (k', v) :: rest => if String.eqb k k' then Some v else get k rest
  end.

(** [Object.keys(o)] *)
Definition keys (o : object) : list string := map fst o.

(** [{...v}]: spreading undefined gives the empty object. *)
Definition spread (v : option object) : object :=
  match v with Some o => o | None => [] end.

(** ** The validator (Joi)

    The part of Joi that [perkSchema] and the two [validate] calls use: string
    and number schemas with [min], [max], [allow], [valid], [default] and
    [required], an object schema over named keys, and the preferences
    [abortEarly], [allowUnknown], [presence] and [stripUnknown].  The
    preferences [convert] and [noDefaults] are never set by the controller and
    keep their defaults (conversion on, defaults applied). *)

Module Joi.

Inductive presence_mode : Type := optional | required_mode | forbidden.

Inductive base_type : Type := string_type | number_type.

Inductive rule : Type :=
| min_rule (limit : Z)
| max_rule (limit : Z).

(** The state of one schema: its type, its flags and its rules. *)
Record schema : Type := {
  type_of : base_type;
  flag_presence : option presence_mode;
  valids : list string;
  flag_only : bool;
  flag_default : option jval;
  rules : list rule
}.

(** [Joi.string()] and [Joi.number()] *)
Definition str : schema :=
  {| type_of := string_type; flag_presence := None; valids := [];
     flag_only := false; flag_default := None; rules := [] |}.

Definition num : schema :=
  {| type_of := number_type; flag_presence := None; valids := [];
     flag_only := false; flag_default := None; rules := [] |}.

Definition min (limit : Z) (s : schema) : schema :=
  {| type_of := type_of s; flag_presence := flag_presence s;
     valids := valids s; flag_only := flag_only s;
     flag_default := flag_default s; rules := rules s ++ [min_rule limit] |}.

Definition max (limit : Z) (s : schema) : schema :=
  {| type_of := type_of s; flag_presence := flag_presence s;
     valids := valids s; flag_only := flag_only s;
     flag_default := flag_default s; rules := rules s ++ [max_rule limit] |}.

Definition required (s : schema) : schema :=
  {| type_of := type_of s; flag_presence := Some required_mode;
     valids := valids s; flag_only := flag_only s;
     flag_default := flag_default s; rules := rules s |}.

(** [allow(...)] adds accepted values, [valid(...)] adds them and accepts
    nothing else. *)
Definition allow (vs : list string) (s : schema) : schema :=
  {| type_of := type_of s; flag_presence := flag_presence s;
     valids := valids s ++ vs; flag_only := flag_only s;
     flag_default := flag_default s; rules := rules s |}.

Definition valid (vs : list string) (s : schema) : schema :=
  {| type_of := type_of s; flag_presence := flag_presence s;
     valids := valids s ++ vs; flag_only := true;
     flag_default := flag_default s; rules := rules s |}.

Definition default (v : jval) (s : schema) : schema :=
  {| type_of := type_of s; flag_presence := flag_presence s;
     valids := valids s; flag_only := flag_only s;
     flag_default := Some v; rules := rules s |}.

(** [Joi.object({...})]: the keys in the order they are written. *)
Definition object_schema : Type := list (string * schema).

Record preferences : Type := {
  abortEarly : bool;
  allowUnknown : bool;
  presence : presence_mode;
  stripUnknown : bool
}.

Definition defaults : preferences :=
  {| abortEarly := true; allowUnknown := false;
     presence := optional; stripUnknown := false |}.

(** One entry of [error.details]: the key it is about and the kind of
    failure, with the limit or list the message shows. *)
Inductive error_type : Type :=
| any_required
| any_unknown
| any_only (allowed : list string)
| string_base
| string_empty
| string_min (limit : Z)
| string_max (limit : Z)
| number_base
| number_unsafe
| number_min (limit : Z)
| number_max (limit : Z)
| object_unknown.

Record detail : Type := { path : string; type : error_type }.

Definition double_quote : Ascii.ascii := Ascii.ascii_of_nat 34.

Definition label (key : string) : string :=
  String double_quote (key +:+ String double_quote "").

(** The message templates of the library. *)
Definition message (d : detail) : string :=
  label (path d) +:+
  match type d with
  | any_required => " is required"
  | any_unknown => " is not allowed"
  | any_only [v] => " must be [" +:+ v +:+ "]"
  | any_only vs => " must be one of [" +:+ String.concat ", " vs +:+ "]"
  | string_base => " must be a string"
  | string_empty => " is not allowed to be empty"
  | string_min n =>
      " length must be at least " +:+ pretty n +:+ " characters long"
  | string_max n =>
      " length must be less than or equal to " +:+ pretty n
        +:+ " characters long"
  | number_base => " must be a number"
  | number_unsafe => " must be a safe number"
  | number_min n => " must be greater than or equal to " +:+ pretty n
  | number_max n => " must be less than or equal to " +:+ pretty n
  | object_unknown => " is not allowed"
  end.

(** [error.message]: the messages of the details, joined. *)
Definition error_message (ds : list detail) : string :=
  String.concat ". " (map message ds).

(** *** Conversion of a numeric string

    With conversion on, a number schema that is handed a string tries to
    read it as a number.  What the library makes of a given string (which
    numerals it reads, which it refuses because a double cannot hold them
    without loss) is floating-point work of the library and is not modelled:
    it is a parameter, and everything below holds whatever it is. *)

Inductive conversion : Type :=
| not_numeric
| converted (q : Q)
| unsafe_numeral.

Class Conversion : Type := number_of_string : string → conversion.

Section validation.
Context {numeric : Conversion}.

(** The value after conversion, or the failure that ends the validation of
    the value. *)
Definition coerce (s : schema) (v : jval) : jval + error_type :=
  match type_of s, v with
  | number_type, JStr text =>
      match number_of_string text with
      | converted q => inl (JNum q)
      | unsafe_numeral => inr number_unsafe
      | not_numeric => inl v
      end
  | _, _ => inl v
  end.

(** *** Validation of one value *)

Definition MAX_SAFE_INTEGER : Z := 9007199254740991.

Definition in_valids (s : schema) (v : jval) : bool :=
  match v with
  | JStr text => bool_decide (text ∈ valids s)
  | _ => false
  end.

(** The check of the base type; an error here ends the validation of the
    value whatever [abortEarly] says. *)
Definition base_check (s : schema) (v : jval) : option error_type :=
  match type_of s, v with
  | string_type, JStr "" =>
      if existsb (fun r => match r with
                           | min_rule 0 => true
                           | _ => false
                           end) (rules s)
      then None else Some string_empty
  | string_type, JStr _ => None
  | string_type, _ => Some string_base
  | number_type, JNum q =>
      if Qle_bool q (inject_Z MAX_SAFE_INTEGER)
         && Qle_bool (inject_Z (- MAX_SAFE_INTEGER)) q
      then None else Some number_unsafe
  | number_type, _ => Some number_base
  end.

Definition check_rule (v : jval) (r : rule) : option error_type :=
  match v, r with
  | JStr text, min_rule n =>
      if (n <=? Z.of_nat (String.length text))%Z then None
      else Some (string_min n)
  | JStr text, max_rule n =>
      if (Z.of_nat (String.length text) <=? n)%Z then None
      else Some (string_max n)
  | JNum q, min_rule n =>
      if Qle_bool (inject_Z n) q then None else Some (number_min n)
  | JNum q, max_rule n =>
      if Qle_bool q (inject_Z n) then None else Some (number_max n)
  | _, _ => None
  end.

(** The rules in order; with [abortEarly] the first failure ends the run. *)
Fixpoint run_rules (abort : bool) (v : jval) (rs : list rule)
  : list error_type :=
  match rs with
  | [] => []
  | r :: rest =>
      match check_rule v r with
      | Some e => if abort then [e] else e :: run_rules abort v rest
      | None => run_rules abort v rest
      end
  end.

(** The presence that applies to a key: the flag of its own schema when it
    has one ([required()] sets it), the [presence] preference otherwise.
    The preference is the default for keys that say nothing; it does not
    override a key that says [required()]. *)
Definition effective_presence (p : preferences) (s : schema)
  : presence_mode :=
  match flag_presence s with
  | Some mode => mode
  | None => presence p
  end.

(** Validation of the value found under one key ([None]: the key is
    absent).  Returns the resulting value and the failures.  An absent
    value gets the default of the schema. *)
Definition validate_value (p : preferences) (s : schema)
    (item : option jval) : option jval * list error_type :=
  match item with
  | None =>
      match effective_presence p s with
      | required_mode => (flag_default s, [any_required])
      | _ => (flag_default s, [])
      end
  | Some raw =>
      match coerce s raw with
      | inr e => (Some raw, [e])
      | inl v =>
          match effective_presence p s with
          | forbidden => (Some v, [any_unknown])
          | _ =>
              if in_valids s v then (Some v, [])
              else
                let only :=
                  if flag_only s then [any_only (valids s)] else [] in
                if abortEarly p && flag_only s then (Some v, only)
                else
                  match base_check s v with
                  | Some e => (Some v, only ++ [e])
                  | None =>
                      (Some v, only ++ run_rules (abortEarly p) v (rules s))
                  end
          end
      end
  end.

(** *** Validation of an object *)

(** The failures of one key of the schema on the object, as entries of
    [error.details]. *)
Definition key_errors (p : preferences) (o : object)
    (child : string * schema) : list detail :=
  map (λ e, {| path := child.1; type := e |})
      (validate_value p child.2 (get child.1 o)).2.

(** The keys of the schema, in the order of the schema.  With [abortEarly]
    the first key that fails ends the validation. *)
Fixpoint validate_children (p : preferences) (children : object_schema)
    (o : object) : object * list detail :=
  match children with
  | [] => ([], [])
  | (key, s) :: rest =>
      let '(v, failures) := validate_value p s (get key o) in
      let errors := map (fun e => {| path := key; type := e |}) failures in
      match abortEarly p, errors with
      | true, _ :: _ => ([], errors)
      | _, _ =>
          let '(o', errors') := validate_children p rest o in
          (match v with Some x => (key, x) :: o' | None => o' end,
           errors ++ errors')
      end
  end.

(** The keys of the object that the schema does not name: dropped with
    [stripUnknown], kept with [allowUnknown], an error each otherwise (the
    first one only with [abortEarly]). *)
Definition validate_unknown (p : preferences) (children : object_schema)
    (o : object) : object * list detail :=
  let unprocessed := filter (λ kv, kv.1 ∉ children.*1) o in
  if stripUnknown p then ([], [])
  else if allowUnknown p then (unprocessed, [])
  else
    let errors :=
      map (λ kv, {| path := kv.1; type := object_unknown |}) unprocessed in
    ([], if abortEarly p then take 1 errors else errors).

(** What [schema.validate(input, preferences)] returns: [error] is
    undefined ([None]) when nothing failed. *)
Record result : Type := {
  value : option object;
  error : option (list detail)
}.

Definition validate (p : preferences) (children : object_schema)
    (input : option object) : result :=
  match input with
  | None =>
      match presence p with
      | required_mode =>
          {| value := None;
             error := Some [{| path := "value"; type := any_required |}] |}
      | _ => {| value := None; error := None |}
      end
  | Some o =>
      let '(o1, errors1) := validate_children p children o in
      match abortEarly p, errors1 with
      | true, _ :: _ => {| value := Some o; error := Some errors1 |}
      | _, _ =>
          let '(o2, errors2) := validate_unknown p children o in
          {| value := Some (o1 ++ o2);
             error := match errors1 ++ errors2 with
                      | [] => None
                      | errors => Some errors
                      end |}
      end
  end.

End validation.

End Joi.

(** ** The schema of the controller *)

Definition categories : list string :=
  ["food"; "tech"; "travel"; "fitness"; "other"].

Definition perkSchema : Joi.object_schema :=
  [ ("title", Joi.required (Joi.min 2 Joi.str));
    ("description", Joi.allow [""] Joi.str);
    ("category", Joi.default (JStr "other") (Joi.valid categories Joi.str));
    ("discountPercent",
      Joi.default (JNum 0) (Joi.max 100 (Joi.min 0 Joi.num)));
    ("merchant", Joi.allow [""] Joi.str) ].

(** The preferences of the [validate] call of [createPerk] (the defaults of
    the library) with [abortEarly] off: what validation finds when it does
    not stop at the first failure. *)
Definition collecting : Joi.preferences :=
  {| Joi.abortEarly := false;
     Joi.allowUnknown := false;
     Joi.presence := Joi.optional;
     Joi.stripUnknown := false |}.

(** The preferences of the [validate] call of [updatePerk]. *)
Definition update_preferences : Joi.preferences :=
  {| Joi.abortEarly := false;
     Joi.allowUnknown := false;
     Joi.presence := Joi.optional;
     Joi.stripUnknown := true |}.

(** ** The collection of perks (the Mongoose model [Perk])

    Modelled from the spec: the model file [models/Perk.js] is not part of the
    controller.  A perk has the seven fields of the data model.  The store
    assigns [_id] and [createdAt] and keeps (title, merchant) unique.  It
    adds no default of its own to [category] or [discountPercent]: defaults
    are the validator's work, and a field set without a title, a category or
    a discount is refused.  A perk always shows a [description] and a
    [merchant], the empty string where none was handed over.  Identifiers
    are the 24 hexadecimal digits of an ObjectId. *)

Record Perk : Type := {
  _id : string;
  title : string;
  description : string;
  category : string;
  discountPercent : Q;
  merchant : string;
  createdAt : nat
}.

(** What the store and the driver throw: [err.name] and [err.code]. *)
Record Err : Type := { name : string; code : option Z }.

Definition CastError : Err := {| name := "CastError"; code := None |}.
Definition ValidationError : Err :=
  {| name := "ValidationError"; code := None |}.
Definition DuplicateKeyError : Err :=
  {| name := "MongoServerError"; code := Some 11000%Z |}.

(** The calls a handler makes to the model, in order. *)
Inductive Call : Type :=
| find (title_filter : option string)
| findById (id : string)
| create (fields : object)
| save (doc : Perk)
| findByIdAndDelete (id : string).

(** The state a handler runs in: the collection keyed by [_id], the counter
    identifiers and creation times are drawn from, and the calls made so
    far. *)
Record World : Type := {
  perks : gmap string Perk;
  clock : nat;
  trace : list Call
}.

Definition called (c : Call) (w : World) : World :=
  {| perks := perks w; clock := clock w; trace := trace w ++ [c] |}.

Definition with_perks (m : gmap string Perk) (w : World) : World :=
  {| perks := m; clock := clock w; trace := trace w |}.

Definition tick (w : World) : World :=
  {| perks := perks w; clock := S (clock w); trace := trace w |}.

(** *** Awaited calls: a result or a thrown error, and the new state *)

Inductive completion (A : Type) : Type :=
| Return (a : A)
| Throw (e : Err).
Arguments Return {A} a.
Arguments Throw {A} e.

Definition Op (A : Type) : Type := World → completion A * World.

#[global] Instance Op_ret : MRet Op := λ A a w, (Return a, w).

#[global] Instance Op_bind : MBind Op := λ A B f m w,
  match m w with
  | (Return a, w') => f a w'
  | (Throw e, w') => (Throw e, w')
  end.

(** *** Identifiers *)

Definition is_hex (c : ascii) : bool :=
  let n := nat_of_ascii c in
  ((48 <=? n) && (n <=? 57)) || ((97 <=? n) && (n <=? 102))
  || ((65 <=? n) && (n <=? 70)).

Definition isValidObjectId (id : string) : bool :=
  (String.length id =? 24) && forallb is_hex (String.list_ascii_of_string id).

Definition hex_digit (n : nat) : ascii :=
  ascii_of_nat (if n <? 10 then 48 + n else 87 + n).

Fixpoint hex (width : nat) (n : nat) : string :=
  match width with
  | 0 => ""
  | S width' => hex width' (n / 16) +:+ String (hex_digit (n mod 16)) ""
  end.

(** The identifier drawn at clock value [n]. *)
Definition ObjectId (n : nat) : string := hex 24 n.

(** *** The operations of the model *)

Definition documents (w : World) : list Perk := (map_to_list (perks w)).*2.

(** [sort({ createdAt: -1 })]: newest first. *)
Definition newest_first (a b : Perk) : Prop := createdAt b ≤ createdAt a.

#[global] Instance newest_first_dec a b : Decision (newest_first a b).
Proof. unfold newest_first. apply _. Defined.

#[global] Instance newest_first_total : Total newest_first.
Proof. intros a b. unfold newest_first. lia. Qed.

#[global] Instance newest_first_trans : Transitive newest_first.
Proof. intros a b c. unfold newest_first. lia. Qed.

(** Modelled from the spec: [Perk.find(filter).sort({ createdAt: -1 })] gives
    the perks whose title is the filter's, all of them without a filter,
    ordered by [createdAt] from newest to oldest. *)
Definition Perk_find (title_filter : option string) : Op (list Perk) := λ w,
  let hits :=
    match title_filter with
    | Some t => filter (λ p, title p = t) (documents w)
    | None => documents w
    end in
  (Return (merge_sort newest_first hits), called (find title_filter) w).

(** [Perk.findById(id)]: a malformed identifier is a cast error. *)
Definition Perk_findById (id : string) : Op (option Perk) := λ w,
  if isValidObjectId id
  then (Return (perks w !! id), called (findById id) w)
  else (Throw CastError, called (findById id) w).

Definition as_string (fallback : string) (v : option jval) : string :=
  match v with Some (JStr s) => s | _ => fallback end.

Definition as_number (fallback : Q) (v : option jval) : Q :=
  match v with Some (JNum q) => q | _ => fallback end.

(** Another document than [doc] holds the same (title, merchant). *)
Definition duplicate (doc : Perk) (w : World) : bool :=
  existsb
    (λ p, negb (String.eqb (_id p) (_id doc))
          && String.eqb (title p) (title doc)
          && String.eqb (merchant p) (merchant doc))
    (documents w).

(** [Perk.create(fields)]: a new document with a fresh identifier and
    creation time; a taken identifier or (title, merchant) is a duplicate-key
    error (code 11000); a field set without a title, a category or a
    discount is a validation error of the model. *)
Definition Perk_create (fields : object) : Op Perk := λ w,
  let w' := tick (called (create fields) w) in
  match get "title" fields, get "category" fields,
        get "discountPercent" fields with
  | Some (JStr t), Some (JStr c), Some (JNum q) =>
      let doc :=
        {| _id := ObjectId (clock w);
           title := t;
           description := as_string "" (get "description" fields);
           category := c;
           discountPercent := q;
           merchant := as_string "" (get "merchant" fields);
           createdAt := clock w |} in
      if bool_decide (is_Some (perks w !! _id doc)) || duplicate doc w
      then (Throw DuplicateKeyError, w')
      else (Return doc, with_perks (<[_id doc := doc]> (perks w)) w')
  | _, _, _ => (Throw ValidationError, w')
  end.

(** [doc.save()]: writes the document back under its identifier. *)
Definition Perk_save (doc : Perk) : Op Perk := λ w,
  let w' := called (save doc) w in
  if duplicate doc w then (Throw DuplicateKeyError, w')
  else (Return doc, with_perks (<[_id doc := doc]> (perks w)) w').

(** [Perk.findByIdAndDelete(id)] *)
Definition Perk_findByIdAndDelete (id : string) : Op (option Perk) := λ w,
  let w' := called (findByIdAndDelete id) w in
  if isValidObjectId id
  then (Return (perks w !! id), with_perks (delete id (perks w)) w')
  else (Throw CastError, w').

(** [Object.assign(perk, value)]: every key of [value] is set on the
    document held in memory; the collection is not touched.  After a
    successful validation [value] holds schema keys only, with values of the
    type of their key. *)
Definition set_path (p : Perk) (kv : string * jval) : Perk :=
  let '(key, v) := kv in
  {| _id := _id p;
     title := if String.eqb key "title" then as_string (title p) (Some v)
              else title p;
     description :=
       if String.eqb key "description"
       then as_string (description p) (Some v) else description p;
     category :=
       if String.eqb key "category" then as_string (category p) (Some v)
       else category p;
     discountPercent :=
       if String.eqb key "discountPercent"
       then as_number (discountPercent p) (Some v) else discountPercent p;
     merchant :=
       if String.eqb key "merchant" then as_string (merchant p) (Some v)
       else merchant p;
     createdAt := createdAt p |}.

Definition Object_assign (p : Perk) (value : object) : Perk :=
  foldl set_path p value.

(** ** Replies *)

Inductive Json : Type :=
| message_body (message : string)
| validation_body (message : string) (details : list string)
| perk_body (perk : Perk)
| perks_body (perks : list Perk)
| ok_body.

(** What a handler does with the request: it answers with a status and a
    JSON body, or hands the error to the error-handling middleware with
    [next(err)]. *)
Inductive Reply : Type :=
| Response (status : nat) (body : Json)
| Next (err : Err).

Definition Handler : Type := World → Reply * World.

(** [try { body } catch (err) { handler }] *)
Definition try_catch (body : Op Reply) (handler : Err → Reply) : Handler :=
  λ w,
    match body w with
    | (Return reply, w') => (reply, w')
    | (Throw err, w') => (handler err, w')
    end.

(** Truthiness of a value that is undefined or a string. *)
Definition truthy (s : option string) : bool :=
  match s with
  | None | Some "" => false
  | Some _ => true
  end.

(** ** Worlds and requests to run examples on *)

(** The examples hold no numeric string, so any conversion runs them: this
    one reads no string as a number. *)
Definition no_numeric_strings : Joi.Conversion := λ _, Joi.not_numeric.

Definition empty_world : World := {| perks := ∅; clock := 0; trace := [] |}.

Definition gym_pass : object :=
  [ ("title", JStr "Gym pass"); ("category", JStr "fitness");
    ("discountPercent", JNum 20); ("merchant", JStr "FitCo") ].

(** The perk that creating [gym_pass] in the empty world stores. *)
Definition gym_pass_perk : Perk :=
  {| _id := ObjectId 0; title := "Gym pass"; description := "";
     category := "fitness"; discountPercent := 20; merchant := "FitCo";
     createdAt := 0 |}.

(** One perk, created at clock value 0. *)
Definition one_perk : World :=
  {| perks := {[ ObjectId 0 := gym_pass_perk ]}; clock := 1; trace := [] |}.

(** Three perks: two with the title "Gym pass", created at clock values 0
    and 2, and between them one with the title "Gym pass 2". *)
Definition second_title_perk : Perk :=
  {| _id := ObjectId 1; title := "Gym pass 2"; description := "";
     category := "fitness"; discountPercent := 10; merchant := "FitCo";
     createdAt := 1 |}.

Definition late_gym_pass_perk : Perk :=
  {| _id := ObjectId 2; title := "Gym pass"; description := "";
     category := "fitness"; discountPercent := 30; merchant := "Flex";
     createdAt := 2 |}.

Definition three_perks : World :=
  {| perks := <[ObjectId 0 := gym_pass_perk]>
                (<[ObjectId 1 := second_title_perk]>
                   {[ ObjectId 2 := late_gym_pass_perk ]});
     clock := 3;
     trace := [] |}.

Ltac value_cases p item :=
  unfold Joi.validate_value, Joi.effective_presence, Joi.in_valids;
  destruct item as [[| ? | ? | ? |]|]; cbn;
  rewrite ?andb_false_r, ?andb_true_r; cbn.

Ltac in_schema :=
  unfold perkSchema;
  repeat first [apply list_elem_of_here | apply list_elem_of_further].

Section handlers.
Context {numeric : Joi.Conversion}.

(** ** The handlers *)

Definition filterPerks (query_title : option string) : Handler :=
  try_catch
    (if truthy query_title then
       found ← Perk_find query_title;
       mret (Response 200 (perks_body found))
     else
       mret (Response 400 (message_body "Title query parameter is required")))
    Next.

Definition getPerk (id : string) : Handler :=
  try_catch
    (perk ← Perk_findById id;
     match perk with
     | None => mret (Response 404 (message_body "Perk not found"))
     | Some perk => mret (Response 200 (perk_body perk))
     end)
    Next.

Definition getAllPerks : Handler :=
  try_catch
    (found ← Perk_find None;
     mret (Response 200 (perks_body found)))
    Next.

Definition createPerk (body : option object) : Handler :=
  try_catch
    (let validation := Joi.validate Joi.defaults perkSchema body in
     match Joi.error validation with
     | Some errors =>
         mret (Response 400 (message_body (Joi.error_message errors)))
     | None =>
         doc ← Perk_create (spread (Joi.value validation));
         mret (Response 201 (perk_body doc))
     end)
    (λ err,
       if bool_decide (code err = Some 11000%Z)
       then Response 409 (message_body "Duplicate perk for this merchant")
       else Next err).

Definition no_fields (body : option object) : bool :=
  match body with
  | None => true
  | Some o => length (keys o) =? 0
  end.

Definition updatePerk (id : option string) (body : option object) : Handler :=
  try_catch
    (if negb (truthy id) then
       mret (Response 400 (message_body "Missing id parameter"))
     else if no_fields body then
       mret (Response 400 (message_body "No update fields provided"))
     else
       perk ← Perk_findById (default "" id);
       match perk with
       | None => mret (Response 404 (message_body "Perk not found"))
       | Some perk =>
           let validation :=
             Joi.validate update_preferences perkSchema body in
           match Joi.error validation with
           | Some errors =>
               mret (Response 400
                       (validation_body "Validation failed"
                          (map Joi.message errors)))
           | None =>
               updated ←
                 Perk_save (Object_assign perk (spread (Joi.value validation)));
               mret (Response 200 (perk_body updated))
           end
       end)
    (λ err,
       if bool_decide (name err = "CastError")
       then Response 400 (message_body "Invalid id format")
       else Next err).

Definition deletePerk (id : string) : Handler :=
  try_catch
    (doc ← Perk_findByIdAndDelete id;
     match doc with
     | None => mret (Response 404 (message_body "Perk not found"))
     | Some _ => mret (Response 200 ok_body)
     end)
    Next.

(** ** The failure kinds of the specification

    A status of 400, 404 or 409 is the bad-request, not-found or conflict
    signal; an error handed to [next] is an internal failure, left to the
    error-handling middleware. *)

Inductive Signal : Type :=
| Success
| BadRequest
| NotFound
| Conflict
| Internal.

Definition signal (r : Reply) : Signal :=
  match r with
  | Response status _ =>
      if status =? 400 then BadRequest
      else if status =? 404 then NotFound
      else if status =? 409 then Conflict
      else Success
  | Next _ => Internal
  end.

(** ** Field sets

    The fields of an object that the schema names, in their order. *)
Definition known_fields (fields : object) : object :=
  filter (λ kv, kv.1 ∈ perkSchema.*1) fields.

(** The failures of the fields the schema does not name, when unknown fields
    are neither allowed nor dropped: one per field, in the order of the
    object. *)
Definition unknown_errors (fields : object) : list Joi.detail :=
  map (λ kv, {| Joi.path := kv.1; Joi.type := Joi.object_unknown |})
      (filter (λ kv, kv.1 ∉ perkSchema.*1) fields).

(** The field sets the schema is written to accept: a title of at least two
    characters; a description and a merchant that are strings when present;
    a category among the five when present; a discount that is a number
    between 0 and 100 when present; no other key. *)
Definition acceptable (fields : object) : Prop :=
  (∃ t, get "title" fields = Some (JStr t) ∧ 2 ≤ String.length t)
  ∧ (get "description" fields = None
     ∨ ∃ s, get "description" fields = Some (JStr s))
  ∧ (get "category" fields = None
     ∨ ∃ c, get "category" fields = Some (JStr c) ∧ c ∈ categories)
  ∧ (get "discountPercent" fields = None
     ∨ ∃ q, get "discountPercent" fields = Some (JNum q)
            ∧ (0 <= q)%Q ∧ (q <= 100)%Q)
  ∧ (get "merchant" fields = None
     ∨ ∃ s, get "merchant" fields = Some (JStr s))
  ∧ ∀ k, k ∈ keys fields → k ∈ perkSchema.*1.

(** * Properties *)

(** ** Identifiers and truthiness *)

Lemma truthy_false (s : option string) :
  truthy s = false ↔ s = None ∨ s = Some "".
Proof.
  destruct s as [[|c s]|]; simpl; intuition (auto; congruence).
Qed.

Lemma valid_id_truthy (id : string) :
  isValidObjectId id = true → truthy (Some id) = true.
Proof. by destruct id. Qed.

Lemma no_fields_spec (body : option object) :
  no_fields body = true ↔ body = None ∨ body = Some [].
Proof.
  destruct body as [[|kv o]|]; simpl; intuition (auto; congruence).
Qed.

(** ** The validator: how the keys of an object are checked *)

Lemma validate_children_cons p key s rest o :
  Joi.validate_children p ((key, s) :: rest) o
  = match Joi.abortEarly p, Joi.key_errors p o (key, s) with
    | true, _ :: _ => ([], Joi.key_errors p o (key, s))
    | _, _ =>
        (match (Joi.validate_value p s (get key o)).1 with
         | Some x => (key, x) :: (Joi.validate_children p rest o).1
         | None => (Joi.validate_children p rest o).1
         end,
         Joi.key_errors p o (key, s) ++ (Joi.validate_children p rest o).2)
    end.
Proof.
  unfold Joi.key_errors. cbn [Joi.validate_children fst snd].
  destruct (Joi.validate_value p s (get key o)) as [v failures].
  destruct (Joi.validate_children p rest o) as [o' errors'].
  reflexivity.
Qed.

Lemma run_rules_abort v rs :
  Joi.run_rules true v rs = take 1 (Joi.run_rules false v rs).
Proof.
  induction rs as [|r rs IH]; [done|].
  simpl. destruct (Joi.check_rule v r); [done|apply IH].
Qed.

Lemma validate_value_abort p q s item :
  Joi.abortEarly p = true → Joi.abortEarly q = false →
  Joi.presence p = Joi.presence q →
  (Joi.validate_value p s item).1 = (Joi.validate_value q s item).1
  ∧ (Joi.validate_value p s item).2
    = take 1 (Joi.validate_value q s item).2.
Proof.
  intros Hp Hq Hpres.
  unfold Joi.validate_value, Joi.effective_presence.
  rewrite Hp, Hq, Hpres.
  destruct item as [raw|].
  2:{ by destruct (Joi.flag_presence s) as [[]|], (Joi.presence q). }
  destruct (Joi.coerce s raw) as [v|e]; [|done].
  destruct (Joi.flag_presence s) as [[]|]; destruct (Joi.presence q);
    try done;
    destruct (Joi.in_valids s v); try done;
    destruct (Joi.flag_only s); try done; simpl;
    destruct (Joi.base_check s v); try done; simpl;
    by rewrite run_rules_abort.
Qed.

Lemma key_errors_abort p q o child :
  Joi.abortEarly p = true → Joi.abortEarly q = false →
  Joi.presence p = Joi.presence q →
  Joi.key_errors p o child = take 1 (Joi.key_errors q o child).
Proof.
  intros Hp Hq Hpres. unfold Joi.key_errors.
  destruct (validate_value_abort p q child.2 (get child.1 o)) as [_ ->];
    [done..|].
  by rewrite <- fmap_take.
Qed.

Lemma validate_children_collect q children o :
  Joi.abortEarly q = false →
  (Joi.validate_children q children o).2
  = flat_map (Joi.key_errors q o) children.
Proof.
  intros Hq. induction children as [|[key s] rest IH]; [done|].
  rewrite validate_children_cons, Hq. simpl. by rewrite IH.
Qed.

Lemma validate_children_abort p q children o :
  Joi.abortEarly p = true → Joi.abortEarly q = false →
  Joi.presence p = Joi.presence q →
  (Joi.validate_children p children o).2
  = take 1 (Joi.validate_children q children o).2.
Proof.
  intros Hp Hq Hpres. induction children as [|[key s] rest IH]; [done|].
  rewrite !validate_children_cons, Hp, Hq.
  rewrite (key_errors_abort p q) by done.
  destruct (Joi.key_errors q o (key, s)) as [|e es]; simpl; [apply IH|done].
Qed.

Lemma get_cons k k' v (o : object) :
  get k ((k', v) :: o) = if decide (k = k') then Some v else get k o.
Proof.
  simpl. destruct (String.eqb_spec k k'); by case_decide.
Qed.

Lemma get_None k (o : object) : get k o = None ↔ k ∉ keys o.
Proof.
  induction o as [|[k' v] o IH]; simpl.
  - split; [intros _; apply not_elem_of_nil|done].
  - destruct (String.eqb_spec k k') as [->|Hne].
    + split; [done|]. intros []. left.
    + rewrite IH, not_elem_of_cons. tauto.
Qed.

Lemma validate_children_keys p children o k :
  k ∉ children.*1 → get k (Joi.validate_children p children o).1 = None.
Proof.
  induction children as [|[key s] rest IH]; [done|].
  rewrite fmap_cons, not_elem_of_cons. intros [Hne Hrest].
  rewrite validate_children_cons.
  simpl in Hne.
  destruct (Joi.abortEarly p), (Joi.key_errors p o (key, s)); cbn [fst snd];
    try done;
    destruct (Joi.validate_value p s (get key o)).1; cbn [fst snd];
    rewrite ?get_cons; try case_decide; try done; by apply IH.
Qed.

Lemma validate_children_get p children o k s :
  NoDup children.*1 →
  (Joi.validate_children p children o).2 = [] →
  (k, s) ∈ children →
  get k (Joi.validate_children p children o).1
    = (Joi.validate_value p s (get k o)).1
  ∧ (Joi.validate_value p s (get k o)).2 = [].
Proof.
  induction children as [|[key s'] rest IH]; [by intros _ _ ?%elem_of_nil|].
  rewrite fmap_cons, NoDup_cons. intros [Hkey Hnodup].
  rewrite validate_children_cons.
  intros Herr Hin.
  assert (Joi.key_errors p o (key, s') = []
          ∧ (Joi.validate_children p rest o).2 = []) as [Hk Hrest].
  { destruct (Joi.abortEarly p), (Joi.key_errors p o (key, s')); simpl in Herr;
      done. }
  assert ((Joi.validate_children p ((key, s') :: rest) o).1
          = match (Joi.validate_value p s' (get key o)).1 with
            | Some x => (key, x) :: (Joi.validate_children p rest o).1
            | None => (Joi.validate_children p rest o).1
            end) as Hfst.
  { rewrite validate_children_cons, Hk. by destruct (Joi.abortEarly p). }
  rewrite Hk in *. 
  apply elem_of_cons in Hin as [[= -> ->]|Hin].
  - split.
    + destruct (Joi.validate_value p s' (get key o)).1 eqn:Hv.
      * destruct (Joi.abortEarly p); cbn [fst snd]; rewrite get_cons;
          by case_decide.
      * destruct (Joi.abortEarly p); cbn [fst snd];
          by apply validate_children_keys.
    + unfold Joi.key_errors in Hk. simpl in Hk.
      by apply fmap_nil_inv in Hk.
  - assert (k ≠ key) as Hne.
    { intros ->. apply Hkey. apply list_elem_of_fmap. by exists (key, s). }
    destruct (IH Hnodup Hrest Hin) as [IH1 IH2]. split; [|done].
    destruct (Joi.abortEarly p),
      (Joi.validate_value p s' (get key o)).1; cbn [fst snd];
      rewrite ?get_cons; try case_decide; done.
Qed.

(** ** What each key of the schema accepts *)

Lemma title_accepted p item :
  (Joi.validate_value p (Joi.required (Joi.min 2 Joi.str)) item).2 = [] →
  ∃ t, item = Some (JStr t)
       ∧ (Joi.validate_value p (Joi.required (Joi.min 2 Joi.str)) item).1
         = Some (JStr t)
       ∧ 2 ≤ String.length t.
Proof.
  unfold Joi.validate_value, Joi.effective_presence, Joi.in_valids.
  destruct item as [[| b | q | t |]|]; cbn; try by destruct (Joi.abortEarly p).
  rewrite bool_decide_eq_false_2 by apply not_elem_of_nil.
  rewrite andb_false_r.
  destruct t as [|c t]; cbn; [done|].
  destruct (Z.leb_spec 2 (Z.of_nat (S (String.length t)))) as [Hle|Hlt].
  - intros _. exists (String c t). repeat split. simpl. lia.
  - by destruct (Joi.abortEarly p).
Qed.

Lemma text_accepted p item :
  (Joi.validate_value p (Joi.allow [""] Joi.str) item).2 = [] →
  Joi.presence p = Joi.optional →
  (item = None
   ∧ (Joi.validate_value p (Joi.allow [""] Joi.str) item).1 = None)
  ∨ (∃ t, item = Some (JStr t)
          ∧ (Joi.validate_value p (Joi.allow [""] Joi.str) item).1
            = Some (JStr t)).
Proof.
  intros H Hp. revert H.
  value_cases p item; rewrite ?Hp; try done.
  - intros _. right. eexists. split; [done|].
    case_bool_decide; [done|]. by destruct s.
  - by left.
Qed.

Lemma category_accepted p item :
  (Joi.validate_value p
     (Joi.default (JStr "other") (Joi.valid categories Joi.str)) item).2 = [] →
  Joi.presence p = Joi.optional →
  ∃ c, (Joi.validate_value p
          (Joi.default (JStr "other") (Joi.valid categories Joi.str)) item).1
       = Some (JStr c)
       ∧ c ∈ categories
       ∧ (item = None → c = "other").
Proof.
  intros H Hp. revert H.
  value_cases p item; rewrite ?Hp; try (by destruct (Joi.abortEarly p)).
  - case_bool_decide as Hin; [|by destruct (Joi.abortEarly p), s].
    intros _. eexists. done.
  - intros _. exists "other". repeat split. set_solver.
Qed.

Lemma discount_accepted p item :
  (Joi.validate_value p
     (Joi.default (JNum 0) (Joi.max 100 (Joi.min 0 Joi.num))) item).2 = [] →
  Joi.presence p = Joi.optional →
  ∃ q, (Joi.validate_value p
          (Joi.default (JNum 0) (Joi.max 100 (Joi.min 0 Joi.num))) item).1
       = Some (JNum q)
       ∧ (0 <= q)%Q ∧ (q <= 100)%Q
       ∧ (item = None → q = 0%Q).
Proof.
  intros H Hp. revert H.
  assert (∀ q,
    (Joi.validate_value p
       (Joi.default (JNum 0) (Joi.max 100 (Joi.min 0 Joi.num)))
       (Some (JNum q))).2 = [] →
    (Joi.validate_value p
       (Joi.default (JNum 0) (Joi.max 100 (Joi.min 0 Joi.num)))
       (Some (JNum q))).1 = Some (JNum q)
    ∧ (0 <= q)%Q ∧ (q <= 100)%Q) as Hnum.
  { intros q.
    unfold Joi.validate_value, Joi.effective_presence, Joi.in_valids.
    cbn. rewrite Hp, andb_false_r.
    destruct (_ && _); cbn; [|done].
    destruct (Qle_bool (inject_Z 0) q) eqn:H0;
      destruct (Qle_bool q (inject_Z 100)) eqn:H100;
      try (by destruct (Joi.abortEarly p)).
    intros _. split; [done|]. split; by apply Qle_bool_iff. }
  destruct item as [[| b | q | t |]|].
  - unfold Joi.validate_value, Joi.effective_presence. cbn.
    by rewrite Hp, andb_false_r.
  - unfold Joi.validate_value, Joi.effective_presence. cbn.
    by rewrite Hp, andb_false_r.
  - intros H'. exists q. apply Hnum in H' as (? & ? & ?).
    repeat split; done.
  - destruct (Joi.number_of_string t) as [|q|] eqn:Hparse.
    + unfold Joi.validate_value, Joi.effective_presence. cbn.
      by rewrite Hparse, Hp, andb_false_r.
    + replace (Joi.validate_value p
                 (Joi.default (JNum 0) (Joi.max 100 (Joi.min 0 Joi.num)))
                 (Some (JStr t)))
        with (Joi.validate_value p
                (Joi.default (JNum 0) (Joi.max 100 (Joi.min 0 Joi.num)))
                (Some (JNum q))).
      * intros H'. exists q. apply Hnum in H' as (? & ? & ?).
        repeat split; done.
      * unfold Joi.validate_value. cbn. by rewrite Hparse.
    + unfold Joi.validate_value. cbn. by rewrite Hparse.
  - unfold Joi.validate_value, Joi.effective_presence. cbn.
    by rewrite Hp, andb_false_r.
  - unfold Joi.validate_value, Joi.effective_presence. cbn. rewrite Hp.
    intros _. exists 0%Q. done.
Qed.

Lemma perkSchema_NoDup : NoDup perkSchema.*1.
Proof. compute_done. Qed.

Lemma validate_accepted p children o :
  Joi.allowUnknown p = false → Joi.stripUnknown p = false →
  Joi.error (Joi.validate p children (Some o)) = None →
  Joi.value (Joi.validate p children (Some o))
    = Some (Joi.validate_children p children o).1
  ∧ (Joi.validate_children p children o).2 = []
  ∧ ∀ k, k ∈ keys o → k ∈ children.*1.
Proof.
  intros Hallow Hstrip. unfold Joi.validate, Joi.validate_unknown.
  rewrite Hallow, Hstrip.
  destruct (Joi.validate_children p children o) as [o1 errors1].
  cbn [fst snd].
  assert (∀ errors : list Joi.detail,
            (if Joi.abortEarly p then take 1 errors else errors) = [] →
            errors = []) as Htake.
  { intros [|e errors]; [done|]. by destruct (Joi.abortEarly p). }
  destruct (Joi.abortEarly p) eqn:Hp, errors1 as [|e1 errors1];
    cbn [Joi.error Joi.value app]; try done.
  - destruct (take 1 _) eqn:Hunknown; [|done].
    intros _. rewrite app_nil_r. repeat split.
    intros k Hk. specialize (Htake _ Hunknown).
    apply fmap_nil_inv in Htake.
    destruct (decide (k ∈ children.*1)) as [|Hnot]; [done|].
    apply list_elem_of_fmap in Hk as ([k' v] & -> & Hkv).
    assert ((k', v) ∈ filter (λ kv : string * jval, kv.1 ∉ children.*1) o)
      as Hin by by apply list_elem_of_filter.
    rewrite Htake in Hin. by apply elem_of_nil in Hin.
  - destruct (map _ _) eqn:Hunknown; [|done].
    intros _. rewrite app_nil_r. repeat split.
    intros k Hk.
    apply fmap_nil_inv in Hunknown.
    destruct (decide (k ∈ children.*1)) as [|Hnot]; [done|].
    apply list_elem_of_fmap in Hk as ([k' v] & -> & Hkv).
    assert ((k', v) ∈ filter (λ kv : string * jval, kv.1 ∉ children.*1) o)
      as Hin by by apply list_elem_of_filter.
    rewrite Hunknown in Hin. by apply elem_of_nil in Hin.
Qed.

(** ** Missing title parameter (filterPerks) *)

(** C6: when the title parameter of the query is absent or the empty string,
    [filterPerks] answers 400 (bad request) and leaves the world as it was:
    the collection is untouched and the trace of calls to the model gains no
    entry, so no query is issued. *)
Theorem filterPerks_missing_title (title : option string) (w : World) :
  title = None ∨ title = Some "" →
  filterPerks title w
    = (Response 400 (message_body "Title query parameter is required"), w)
  ∧ signal (filterPerks title w).1 = BadRequest
  ∧ trace (filterPerks title w).2 = trace w.
Proof.
  intros [-> | ->]; by repeat split.
Qed.

(** ** The guards of updatePerk *)

(** C9 (amended): an update without an identifier answers 400 with the
    message "Missing id parameter"; an update with an identifier and an
    empty (or absent) field set answers 400 with the message "No update
    fields provided".  In both cases the world is left as it was: no lookup
    or write reaches the model and the stored record is unchanged. *)
Theorem updatePerk_guards (id : option string) (body : option object)
    (w : World) :
  (id = None ∨ id = Some "" →
   updatePerk id body w
     = (Response 400 (message_body "Missing id parameter"), w))
  ∧ (truthy id = true → body = None ∨ body = Some [] →
     updatePerk id body w
       = (Response 400 (message_body "No update fields provided"), w)).
Proof.
  split.
  - intros H. apply truthy_false in H.
    unfold updatePerk, try_catch. by rewrite H.
  - intros Hid H. apply no_fields_spec in H.
    unfold updatePerk, try_catch. by rewrite Hid, H.
Qed.

(** ** Lookups by identifier (getPerk, deletePerk) *)

(** C2 (how the code behaves): for a malformed identifier [getPerk] and
    [deletePerk] do not answer 400: their [catch] has no case for the cast
    error of the model, which [updatePerk] maps to 400 "Invalid id format",
    and hands it to [next]; the collection keeps its contents.  For a
    well-formed identifier that matches no record they answer 404 "Perk not
    found". *)
Theorem getPerk_deletePerk_by_id (id : string) (w : World) :
  (isValidObjectId id = false →
   (getPerk id w).1 = Next CastError
   ∧ (deletePerk id w).1 = Next CastError
   ∧ perks (getPerk id w).2 = perks w
   ∧ perks (deletePerk id w).2 = perks w)
  ∧ (isValidObjectId id = true → perks w !! id = None →
     (getPerk id w).1 = Response 404 (message_body "Perk not found")
     ∧ (deletePerk id w).1 = Response 404 (message_body "Perk not found")
     ∧ signal (getPerk id w).1 = NotFound
     ∧ signal (deletePerk id w).1 = NotFound).
Proof.
  split.
  - intros Hid.
    unfold getPerk, deletePerk, try_catch, mbind, Op_bind,
      Perk_findById, Perk_findByIdAndDelete.
    by rewrite Hid.
  - intros Hid Hnone.
    unfold getPerk, deletePerk, try_catch, mbind, Op_bind,
      Perk_findById, Perk_findByIdAndDelete.
    by rewrite Hid, Hnone.
Qed.

(** ** Creation (createPerk) *)

Lemma createPerk_rejected (fields : object) (w : World) errors :
  Joi.error (Joi.validate Joi.defaults perkSchema (Some fields)) = Some errors →
  createPerk (Some fields) w
    = (Response 400 (message_body (Joi.error_message errors)), w).
Proof.
  intros H. unfold createPerk, try_catch. by rewrite H.
Qed.

Lemma createPerk_accepted (fields : object) (w : World) :
  Joi.error (Joi.validate Joi.defaults perkSchema (Some fields)) = None →
  ∃ t c q,
    let doc :=
      {| _id := ObjectId (clock w);
         title := t;
         description := as_string "" (get "description" fields);
         category := c;
         discountPercent := q;
         merchant := as_string "" (get "merchant" fields);
         createdAt := clock w |} in
    get "title" fields = Some (JStr t) ∧ 2 ≤ String.length t
    ∧ c ∈ categories ∧ (get "category" fields = None → c = "other")
    ∧ (0 <= q)%Q ∧ (q <= 100)%Q
    ∧ (get "discountPercent" fields = None → q = 0%Q)
    ∧ Perk_create
        (spread (Joi.value (Joi.validate Joi.defaults perkSchema (Some fields))))
        w
      = if bool_decide (is_Some (perks w !! _id doc)) || duplicate doc w
        then (Throw DuplicateKeyError,
              tick (called (create (Joi.validate_children Joi.defaults perkSchema fields).1) w))
        else (Return doc,
              with_perks (<[_id doc := doc]> (perks w))
                (tick (called (create (Joi.validate_children Joi.defaults perkSchema fields).1) w))).
Proof.
  intros H.
  destruct (validate_accepted Joi.defaults perkSchema fields eq_refl eq_refl H)
    as (-> & Hnil & _).
  pose proof (validate_children_get Joi.defaults perkSchema fields) as Hget.
  destruct (Hget "title" _ perkSchema_NoDup Hnil ltac:(in_schema))
    as [Ht1 Ht2].
  destruct (Hget "description" _ perkSchema_NoDup Hnil ltac:(in_schema))
    as [Hd1 Hd2].
  destruct (Hget "category" _ perkSchema_NoDup Hnil ltac:(in_schema))
    as [Hc1 Hc2].
  destruct (Hget "discountPercent" _ perkSchema_NoDup Hnil ltac:(in_schema))
    as [Hq1 Hq2].
  destruct (Hget "merchant" _ perkSchema_NoDup Hnil ltac:(in_schema))
    as [Hm1 Hm2].
  clear Hget.
  destruct (title_accepted _ _ Ht2) as (t & Ht & Ht' & Hlen).
  destruct (category_accepted _ _ Hc2 eq_refl) as (c & Hc' & Hc & Hcd).
  destruct (discount_accepted _ _ Hq2 eq_refl) as (q & Hq' & Hq0 & Hq100 & Hqd).
  exists t, c, q. cbn zeta.
  repeat (split; [done|]).
  unfold Perk_create. cbn [spread].
  rewrite Ht1, Ht', Hd1, Hc1, Hc', Hq1, Hq', Hm1.
  cbn [as_string as_number].
  assert (∀ item, (Joi.validate_value Joi.defaults (Joi.allow [""] Joi.str) item).2 = [] →
     as_string "" (Joi.validate_value Joi.defaults (Joi.allow [""] Joi.str) item).1
     = as_string "" item) as Htext.
  { intros item Hitem.
    destruct (text_accepted _ _ Hitem eq_refl) as [[-> ->]|(s & -> & ->)];
      done. }
  by rewrite !Htext.
Qed.

Lemma createPerk_after_validation (fields : object) (w : World) :
  Joi.error (Joi.validate Joi.defaults perkSchema (Some fields)) = None →
  createPerk (Some fields) w
  = match Perk_create
            (spread (Joi.value
                       (Joi.validate Joi.defaults perkSchema (Some fields)))) w
    with
    | (Return doc, w') => (Response 201 (perk_body doc), w')
    | (Throw err, w') =>
        (if bool_decide (code err = Some 11000%Z)
         then Response 409 (message_body "Duplicate perk for this merchant")
         else Next err, w')
    end.
Proof.
  intros H. unfold createPerk, try_catch. rewrite H.
  unfold mbind, Op_bind, mret, Op_ret.
  by destruct (Perk_create _ w) as [[doc|err] w'].
Qed.

(** X14: when a body is sent and its title is absent, or is a string of
    fewer than 2 characters, [createPerk] answers 400 (bad request) with the
    message of the failure on "title" and leaves the world as it was: the
    model receives no call, so nothing is inserted and the collection keeps
    its contents. *)
Theorem createPerk_short_title (fields : object) (w : World) :
  get "title" fields = None
  ∨ (∃ s, get "title" fields = Some (JStr s) ∧ String.length s < 2) →
  ∃ d, Joi.path d = "title"
       ∧ createPerk (Some fields) w
         = (Response 400 (message_body (Joi.message d)), w).
Proof.
  intros [H | (s & H & Hlen)].
  - exists {| Joi.path := "title"; Joi.type := Joi.any_required |}.
    split; [done|].
    unfold createPerk, try_catch, Joi.validate, perkSchema.
    cbn [Joi.validate_children]. rewrite H. reflexivity.
  - destruct s as [|c [|c' s]]; [| |simpl in Hlen; lia].
    + exists {| Joi.path := "title"; Joi.type := Joi.string_empty |}.
      split; [done|].
      unfold createPerk, try_catch, Joi.validate, perkSchema.
      cbn [Joi.validate_children]. rewrite H. reflexivity.
    + exists {| Joi.path := "title"; Joi.type := Joi.string_min 2 |}.
      split; [done|].
      unfold createPerk, try_catch, Joi.validate, perkSchema.
      cbn [Joi.validate_children]. rewrite H. reflexivity.
Qed.

(** C8 (how the code behaves): when no body is sent at all the title is
    absent too, but the schema accepts an undefined value, so validation
    passes and [Perk.create] is called with an empty field set: the answer
    is not a 400, it is whatever the model makes of a perk without a title
    (here its validation error, handed to [next]).  [updatePerk] has a guard
    for a missing body; [createPerk] has none. *)
Theorem createPerk_undefined_body (w : World) :
  createPerk None w = (Next ValidationError, tick (called (create []) w))
  ∧ trace (createPerk None w).2 = trace w ++ [create []]
  ∧ ∀ body, (createPerk None w).1 ≠ Response 400 body.
Proof. by repeat split. Qed.

(** ** The collection *)

Lemma documents_lookup (w : World) (p : Perk) :
  p ∈ documents w ↔ ∃ id, perks w !! id = Some p.
Proof.
  unfold documents. rewrite list_elem_of_fmap. split.
  - intros ([id p'] & -> & Hin). exists id. by apply elem_of_map_to_list.
  - intros (id & Hid). exists (id, p). split; [done|].
    by apply elem_of_map_to_list.
Qed.

Lemma duplicate_true (doc p : Perk) (w : World) :
  p ∈ documents w → _id p ≠ _id doc →
  title p = title doc → merchant p = merchant doc →
  duplicate doc w = true.
Proof.
  intros Hin Hid Ht Hm. unfold duplicate.
  apply existsb_exists. exists p. split; [by apply list_elem_of_In|].
  rewrite Ht, Hm, !String.eqb_refl.
  by apply String.eqb_neq in Hid as ->.
Qed.

Lemma createPerk_created (fields : object) (w : World) doc w' :
  createPerk (Some fields) w = (Response 201 (perk_body doc), w') →
  Joi.error (Joi.validate Joi.defaults perkSchema (Some fields)) = None
  ∧ get "title" fields = Some (JStr (title doc))
  ∧ merchant doc = as_string "" (get "merchant" fields)
  ∧ description doc = as_string "" (get "description" fields)
  ∧ _id doc = ObjectId (clock w)
  ∧ createdAt doc = clock w
  ∧ perks w !! _id doc = None
  ∧ duplicate doc w = false
  ∧ perks w' = <[_id doc := doc]> (perks w)
  ∧ clock w' = S (clock w).
Proof.
  destruct (Joi.error (Joi.validate Joi.defaults perkSchema (Some fields)))
    as [errors|] eqn:Hv.
  - by rewrite (createPerk_rejected _ _ _ Hv).
  - rewrite (createPerk_after_validation _ _ Hv).
    destruct (createPerk_accepted _ w Hv)
      as (t & c & q & Ht & _ & _ & _ & _ & _ & _ & ->).
    destruct (bool_decide _) eqn:Hfree; [done|].
    destruct (duplicate _ w) eqn:Hdup; [done|].
    cbn [orb]. intros [= <- <-]. cbn [title merchant description _id createdAt].
    repeat (split; [done|]). split; [|done].
    apply bool_decide_eq_false in Hfree.
    by apply eq_None_not_Some.
Qed.

(** C5 (amended): whenever the model throws an error with code 11000 during
    the insert, [createPerk] answers 409 (conflict) with the message
    "Duplicate perk for this merchant" and the collection keeps its contents;
    in particular, after a successful create, a second valid create with the
    same title and merchant gets that answer. *)
Theorem createPerk_conflict :
  (∀ body w err w',
     Joi.error (Joi.validate Joi.defaults perkSchema body) = None →
     Perk_create
       (spread (Joi.value (Joi.validate Joi.defaults perkSchema body))) w
       = (Throw err, w') →
     code err = Some 11000%Z →
     createPerk body w
       = (Response 409 (message_body "Duplicate perk for this merchant"), w')
     ∧ perks w' = perks w)
  ∧ (∀ first second w doc w1,
       createPerk (Some first) w = (Response 201 (perk_body doc), w1) →
       Joi.error (Joi.validate Joi.defaults perkSchema (Some second)) = None →
       get "title" second = get "title" first →
       as_string "" (get "merchant" second)
         = as_string "" (get "merchant" first) →
       (createPerk (Some second) w1).1
         = Response 409 (message_body "Duplicate perk for this merchant")
       ∧ signal (createPerk (Some second) w1).1 = Conflict
       ∧ perks (createPerk (Some second) w1).2 = perks w1).
Proof.
  split.
  - intros body w err w' Hv Hthrow Hcode.
    unfold createPerk, try_catch. rewrite Hv.
    unfold mbind, Op_bind. rewrite Hthrow.
    rewrite bool_decide_eq_true_2 by done. split; [done|].
    revert Hthrow. unfold Perk_create.
    repeat case_match; by intros [= <- <-].
  - intros first second w doc w1 Hfirst Hv Htitle Hmerchant.
    apply createPerk_created in Hfirst
      as (_ & Ht & Hm & _ & Hid & _ & _ & _ & Hperks & _).
    rewrite (createPerk_after_validation _ _ Hv).
    destruct (createPerk_accepted _ w1 Hv)
      as (t & c & q & Ht2 & _ & _ & _ & _ & _ & _ & ->).
    set (doc2 := {| _id := ObjectId (clock w1); title := t |}).
    assert (bool_decide (is_Some (perks w1 !! _id doc2)) || duplicate doc2 w1
            = true) as ->; [|done].
    destruct (decide (_id doc = _id doc2)) as [Heq|Hne].
    + rewrite bool_decide_eq_true_2; [done|].
      rewrite Hperks, <- Heq, lookup_insert_eq. by eexists.
    + rewrite (duplicate_true doc2 doc); [by rewrite orb_true_r| |done|..].
      * apply documents_lookup. exists (_id doc).
        by rewrite Hperks, lookup_insert_eq.
      * cbn [title doc2]. congruence.
      * cbn [merchant doc2]. congruence.
Qed.

(** ** Filtering by title (filterPerks) *)

Lemma StronglySorted_lookup_lt {A} (R : relation A) (l : list A)
    (i j : nat) (x y : A) :
  StronglySorted R l → i < j → l !! i = Some x → l !! j = Some y → R x y.
Proof.
  intros Hsorted. revert i j.
  induction Hsorted as [|a l Hsorted IH Hall]; intros i j Hij Hi Hj;
    [done|].
  destruct j as [|j]; [lia|]. destruct i as [|i].
  - injection Hi as ->. rewrite Forall_forall in Hall. apply Hall.
    by eapply list_elem_of_lookup_2.
  - apply (IH i j); [lia|done|done].
Qed.

(** C7: for a non-empty title [T], [filterPerks] makes one [find] call and
    answers 200 with exactly the perks of the collection whose title equals
    [T] (the same perks with the same multiplicity; a perk with another
    title is not among them), ordered by [createdAt] descending: a perk
    listed before another was not created earlier than it.  When no perk has
    that title the answer is the empty list. *)
Theorem filterPerks_exact_title (T : string) (w : World) :
  T ≠ "" →
  ∃ found,
    filterPerks (Some T) w
      = (Response 200 (perks_body found), called (find (Some T)) w)
    ∧ found ≡ₚ filter (λ p, title p = T) (documents w)
    ∧ (∀ p, p ∈ found ↔ (∃ id, perks w !! id = Some p) ∧ title p = T)
    ∧ (∀ i j p q, i < j → found !! i = Some p → found !! j = Some q →
                  createdAt q ≤ createdAt p)
    ∧ ((∀ p, p ∈ documents w → title p ≠ T) → found = []).
Proof.
  intros HT.
  set (found :=
         merge_sort newest_first (filter (λ p, title p = T) (documents w))).
  assert (∀ p, p ∈ found ↔ p ∈ documents w ∧ title p = T) as Hfound.
  { intros p. unfold found.
    rewrite merge_sort_Permutation, list_elem_of_filter. tauto. }
  exists found. split.
  { unfold filterPerks, try_catch. by destruct T. }
  split; [apply merge_sort_Permutation|].
  split.
  { intros p. by rewrite Hfound, documents_lookup. }
  split.
  { intros i j p q Hij Hi Hj.
    apply (StronglySorted_lookup_lt newest_first found i j p q);
      [|done..].
    apply StronglySorted_merge_sort; apply _. }
  intros Hnone. destruct found as [|p l]; [done|].
  destruct (Hfound p) as [[Hin Htitle] _]; [left|].
  by destruct (Hnone p Hin).
Qed.

(** ** Updates (updatePerk) *)

Lemma updatePerk_found (id : string) (body : option object) (perk : Perk)
    (w : World) :
  isValidObjectId id = true → perks w !! id = Some perk →
  no_fields body = false →
  updatePerk (Some id) body w
  = match Joi.error (Joi.validate update_preferences perkSchema body) with
    | Some errors =>
        (Response 400
           (validation_body "Validation failed" (map Joi.message errors)),
         called (findById id) w)
    | None =>
        let doc :=
          Object_assign perk
            (spread (Joi.value
                       (Joi.validate update_preferences perkSchema body))) in
        if duplicate doc (called (findById id) w)
        then (Next DuplicateKeyError,
              called (save doc) (called (findById id) w))
        else (Response 200 (perk_body doc),
              with_perks (<[_id doc := doc]> (perks w))
                (called (save doc) (called (findById id) w)))
    end.
Proof.
  intros Hid Hperk Hbody.
  unfold updatePerk, try_catch.
  rewrite (valid_id_truthy id Hid), Hbody. cbn [negb].
  change (default "" (Some id)) with id.
  unfold mbind, Op_bind, Perk_findById. rewrite Hid, Hperk.
  destruct (Joi.error _) as [errors|]; [done|].
  unfold Perk_save, mret, Op_ret. cbn zeta.
  by destruct (duplicate _ _).
Qed.

Lemma validate_collect (p : Joi.preferences) (o : object) :
  Joi.abortEarly p = false → Joi.stripUnknown p = true →
  Joi.error (Joi.validate p perkSchema (Some o))
  = match flat_map (Joi.key_errors p o) perkSchema with
    | [] => None
    | errors => Some errors
    end.
Proof.
  intros Habort Hstrip.
  pose proof (validate_children_collect p perkSchema o Habort) as Hc.
  unfold Joi.validate, Joi.validate_unknown. rewrite Habort, Hstrip.
  destruct (Joi.validate_children p perkSchema o) as [o1 errors1].
  cbn [snd] in Hc. subst errors1.
  cbn [Joi.error]. by rewrite app_nil_r.
Qed.

(** C1 (how the code behaves): an update of an existing record whose body
    holds only [description] does not reach the merge.  The schema marks
    [title] as [required()], the [presence] preference does not lift that,
    so validation fails: the answer is 400 "Validation failed" with the one
    detail that "title" is required, and the only call to the model is the
    lookup.  No field of the stored record changes, [description]
    included. *)
Theorem updatePerk_description_only (id text : string) (perk : Perk)
    (w : World) :
  isValidObjectId id = true → perks w !! id = Some perk →
  updatePerk (Some id) (Some [("description", JStr text)]) w
  = (Response 400
       (validation_body "Validation failed"
          [Joi.message {| Joi.path := "title"; Joi.type := Joi.any_required |}]),
     called (findById id) w).
Proof.
  intros Hid Hperk.
  rewrite (updatePerk_found id _ perk) by done.
  rewrite validate_collect by done.
  unfold perkSchema, Joi.key_errors, Joi.validate_value, Joi.in_valids.
  cbn. case_bool_decide as Hin; [done|].
  destruct text; [|done]. destruct Hin. left.
Qed.

(** C4: when the fields of an update of an existing record fail validation,
    [updatePerk] answers 400 (bad request) with the messages of all the
    failures: the list holds, in the order of the schema, every failure of
    every key of the schema, not the first one only.  The collection keeps
    its contents. *)
Theorem updatePerk_validation_failure (id : string) (fields : object)
    (perk : Perk) (errors : list Joi.detail) (w : World) :
  isValidObjectId id = true → perks w !! id = Some perk → fields ≠ [] →
  Joi.error (Joi.validate update_preferences perkSchema (Some fields))
    = Some errors →
  updatePerk (Some id) (Some fields) w
    = (Response 400
         (validation_body "Validation failed" (map Joi.message errors)),
       called (findById id) w)
  ∧ signal (updatePerk (Some id) (Some fields) w).1 = BadRequest
  ∧ errors = flat_map (Joi.key_errors update_preferences fields) perkSchema
  ∧ perks (updatePerk (Some id) (Some fields) w).2 = perks w.
Proof.
  intros Hid Hperk Hfields Herrors.
  rewrite (updatePerk_found id _ perk), Herrors; [|done|done|by destruct fields].
  repeat split.
  rewrite validate_collect in Herrors by done.
  destruct (flat_map _ _); congruence.
Qed.

(** * Further properties of the handlers *)

(** ** Generated identifiers *)

Lemma hex_digit_is_hex (n : nat) : n < 16 → is_hex (hex_digit n) = true.
Proof.
  intros Hn. do 16 (destruct n as [|n]; [reflexivity|]). lia.
Qed.

Lemma string_snoc (s : string) (c : ascii) (f : ascii → bool) :
  String.length (s +:+ String c "") = S (String.length s)
  ∧ forallb f (String.list_ascii_of_string (s +:+ String c ""))
    = forallb f (String.list_ascii_of_string s) && f c.
Proof.
  induction s as [|c' s [IHlen IHall]]; simpl.
  - by rewrite andb_true_r.
  - by rewrite IHlen, IHall, andb_assoc.
Qed.

Lemma hex_chars (width n : nat) :
  String.length (hex width n) = width
  ∧ forallb is_hex (String.list_ascii_of_string (hex width n)) = true.
Proof.
  revert n. induction width as [|width IH]; intros n; [done|].
  cbn [hex]. destruct (IH (n / 16)) as [Hlen Hall].
  destruct (string_snoc (hex width (n / 16)) (hex_digit (n mod 16)) is_hex)
    as [-> ->].
  rewrite Hlen, Hall, hex_digit_is_hex; [done|].
  apply Nat.mod_upper_bound. lia.
Qed.

Lemma ObjectId_valid (n : nat) : isValidObjectId (ObjectId n) = true.
Proof.
  unfold isValidObjectId, ObjectId.
  destruct (hex_chars 24 n) as [-> ->]. done.
Qed.

(** ** The handlers that look a perk up by identifier, case by case *)

Lemma getPerk_cases (id : string) (w : World) :
  getPerk id w
  = (if isValidObjectId id
     then match perks w !! id with
          | Some perk => Response 200 (perk_body perk)
          | None => Response 404 (message_body "Perk not found")
          end
     else Next CastError,
     called (findById id) w).
Proof.
  unfold getPerk, try_catch, mbind, Op_bind, Perk_findById.
  destruct (isValidObjectId id); [|done]. by destruct (perks w !! id).
Qed.

Lemma deletePerk_cases (id : string) (w : World) :
  deletePerk id w
  = if isValidObjectId id
    then (match perks w !! id with
          | Some _ => Response 200 ok_body
          | None => Response 404 (message_body "Perk not found")
          end,
          with_perks (delete id (perks w)) (called (findByIdAndDelete id) w))
    else (Next CastError, called (findByIdAndDelete id) w).
Proof.
  unfold deletePerk, try_catch, mbind, Op_bind, Perk_findByIdAndDelete.
  destruct (isValidObjectId id); [|done]. by destruct (perks w !! id).
Qed.

(** ** Listing (getAllPerks) *)

(** X1: [getAllPerks] makes one [find] call without a filter and answers 200
    with every perk of the collection, each once, ordered by [createdAt]
    from newest to oldest. *)
Theorem getAllPerks_newest_first (w : World) :
  ∃ found,
    getAllPerks w = (Response 200 (perks_body found), called (find None) w)
    ∧ found ≡ₚ documents w
    ∧ (∀ p, p ∈ found ↔ ∃ id, perks w !! id = Some p)
    ∧ StronglySorted newest_first found
    ∧ length found = size (perks w).
Proof.
  exists (merge_sort newest_first (documents w)).
  split; [done|].
  split; [apply merge_sort_Permutation|].
  split.
  { intros p. by rewrite merge_sort_Permutation, documents_lookup. }
  split; [apply StronglySorted_merge_sort; apply _|].
  rewrite merge_sort_Permutation. unfold documents.
  by rewrite length_fmap, length_map_to_list.
Qed.

(** ** Reading back what was created *)

(** X2: a perk that [createPerk] answered with 201 can be read back: its
    identifier is well-formed, [getPerk] on it answers 200 with that very
    record, before the create the same lookup answered 404, and the create
    changed no record stored under another identifier. *)
Theorem createPerk_then_getPerk (fields : object) (w : World)
    (doc : Perk) (w' : World) :
  createPerk (Some fields) w = (Response 201 (perk_body doc), w') →
  isValidObjectId (_id doc) = true
  ∧ getPerk (_id doc) w'
    = (Response 200 (perk_body doc), called (findById (_id doc)) w')
  ∧ getPerk (_id doc) w
    = (Response 404 (message_body "Perk not found"),
       called (findById (_id doc)) w)
  ∧ ∀ id, id ≠ _id doc → perks w' !! id = perks w !! id.
Proof.
  intros Hcreate.
  apply createPerk_created in Hcreate
    as (_ & _ & _ & _ & Hid & _ & Hfree & _ & Hperks & _).
  assert (isValidObjectId (_id doc) = true) as Hvalid.
  { rewrite Hid. apply ObjectId_valid. }
  split; [done|].
  rewrite !getPerk_cases, Hvalid, Hfree, Hperks, lookup_insert_eq.
  repeat split. intros id Hne. by rewrite lookup_insert_ne.
Qed.

(** ** Deleting (deletePerk) *)

(** X3: [deletePerk] on the identifier of a stored perk answers 200
    [{ ok: true }] and removes exactly that record: the others stay, and a
    later [getPerk] or [deletePerk] on the same identifier answers 404. *)
Theorem deletePerk_removes (id : string) (perk : Perk) (w : World) :
  isValidObjectId id = true → perks w !! id = Some perk →
  let w' := (deletePerk id w).2 in
  (deletePerk id w).1 = Response 200 ok_body
  ∧ perks w' = delete id (perks w)
  ∧ (∀ other, other ≠ id → perks w' !! other = perks w !! other)
  ∧ (getPerk id w').1 = Response 404 (message_body "Perk not found")
  ∧ (deletePerk id w').1 = Response 404 (message_body "Perk not found").
Proof.
  intros Hid Hperk. cbn zeta.
  rewrite getPerk_cases, !deletePerk_cases, Hid, Hperk.
  cbn [fst snd with_perks perks called].
  rewrite lookup_delete_eq. repeat split.
  intros other Hne. by rewrite lookup_delete_ne.
Qed.

(** ** Updates that do not reach validation *)

(** X4: an update with a non-empty body whose identifier is malformed
    answers 400 "Invalid id format" (the cast error is caught here, unlike in
    [getPerk] and [deletePerk]); with a well-formed identifier that matches
    no record it answers 404 "Perk not found".  In both cases the lookup is
    the only call to the model. *)
Theorem updatePerk_lookup_failures (id : string) (body : option object)
    (w : World) :
  id ≠ "" → no_fields body = false →
  (isValidObjectId id = false →
   updatePerk (Some id) body w
     = (Response 400 (message_body "Invalid id format"),
        called (findById id) w))
  ∧ (isValidObjectId id = true → perks w !! id = None →
     updatePerk (Some id) body w
       = (Response 404 (message_body "Perk not found"),
          called (findById id) w)).
Proof.
  intros Hid Hbody.
  assert (truthy (Some id) = true) as Htruthy by by destruct id.
  split.
  - intros Hbad. unfold updatePerk, try_catch.
    rewrite Htruthy, Hbody. cbn [negb].
    change (default "" (Some id)) with id.
    unfold mbind, Op_bind, Perk_findById. by rewrite Hbad.
  - intros Hgood Hnone. unfold updatePerk, try_catch.
    rewrite Htruthy, Hbody. cbn [negb].
    change (default "" (Some id)) with id.
    unfold mbind, Op_bind, Perk_findById. by rewrite Hgood, Hnone.
Qed.

(** ** The merge of a validated update *)

Lemma validate_children_NoDup p children o :
  NoDup children.*1 → NoDup (keys (Joi.validate_children p children o).1).
Proof.
  induction children as [|[key s] rest IH]; [intros _; apply NoDup_nil_2|].
  rewrite fmap_cons, NoDup_cons. intros [Hkey Hrest].
  rewrite validate_children_cons.
  destruct (Joi.abortEarly p), (Joi.key_errors p o (key, s));
    cbn [fst snd]; try apply NoDup_nil_2;
    destruct (Joi.validate_value p s (get key o)).1; cbn [fst snd];
    try (by apply IH);
    (apply NoDup_cons; split; [|by apply IH]);
    apply get_None; by apply validate_children_keys.
Qed.

Lemma Object_assign_get (perk : Perk) (value : object) :
  NoDup (keys value) →
  Object_assign perk value
  = {| _id := _id perk;
       title := as_string (title perk) (get "title" value);
       description := as_string (description perk) (get "description" value);
       category := as_string (category perk) (get "category" value);
       discountPercent :=
         as_number (discountPercent perk) (get "discountPercent" value);
       merchant := as_string (merchant perk) (get "merchant" value);
       createdAt := createdAt perk |}.
Proof.
  unfold Object_assign. revert perk.
  induction value as [|[k v] value IH]; intros perk Hnodup.
  { by destruct perk. }
  apply NoDup_cons in Hnodup as [Hk Hnodup].
  apply get_None in Hk. cbn [fst] in Hk.
  cbn [foldl]. rewrite (IH _ Hnodup). clear IH.
  unfold set_path. cbn [_id title description category discountPercent
                        merchant createdAt get].
  rewrite !(String.eqb_sym k).
  repeat match goal with
         | |- context [String.eqb ?a k] =>
             destruct (String.eqb_spec a k) as [<-|?]; [rewrite Hk|]
         end; reflexivity.
Qed.

Lemma category_value p item :
  (Joi.validate_value p
     (Joi.default (JStr "other") (Joi.valid categories Joi.str)) item).2 = [] →
  Joi.presence p = Joi.optional →
  (Joi.validate_value p
     (Joi.default (JStr "other") (Joi.valid categories Joi.str)) item).1
  = Some (JStr (as_string "other" item)).
Proof.
  intros H Hp. revert H.
  value_cases p item; rewrite ?Hp; try (by destruct (Joi.abortEarly p)).
  case_bool_decide as Hin; [done|by destruct (Joi.abortEarly p), s].
Qed.

Lemma discount_value p q :
  (Joi.validate_value p
     (Joi.default (JNum 0) (Joi.max 100 (Joi.min 0 Joi.num)))
     (Some (JNum q))).2 = [] →
  Joi.presence p = Joi.optional →
  (Joi.validate_value p
     (Joi.default (JNum 0) (Joi.max 100 (Joi.min 0 Joi.num)))
     (Some (JNum q))).1 = Some (JNum q).
Proof.
  intros _ Hp.
  unfold Joi.validate_value, Joi.effective_presence, Joi.in_valids.
  cbn. rewrite Hp, andb_false_r. by destruct (_ && _).
Qed.

Lemma validate_update (fields : object) :
  Joi.validate update_preferences perkSchema (Some fields)
  = {| Joi.value :=
         Some (Joi.validate_children update_preferences perkSchema fields).1;
       Joi.error :=
         match flat_map (Joi.key_errors update_preferences fields) perkSchema
         with
         | [] => None
         | errors => Some errors
         end |}.
Proof.
  pose proof (validate_children_collect update_preferences perkSchema fields
                eq_refl) as Hc.
  unfold Joi.validate, Joi.validate_unknown.
  destruct (Joi.validate_children update_preferences perkSchema fields)
    as [o1 errors1].
  cbn [snd fst Joi.abortEarly Joi.stripUnknown update_preferences] in *.
  subst errors1. by rewrite !app_nil_r.
Qed.

Lemma flat_map_nil_inv {A B} (f : A → list B) (l : list A) (x : A) :
  flat_map f l = [] → x ∈ l → f x = [].
Proof.
  induction l as [|y l IH]; [by intros _ ?%elem_of_nil|].
  simpl. intros [Hy Hl]%app_eq_nil [->|Hx]%elem_of_cons; auto.
Qed.

Lemma duplicate_called (doc : Perk) (c : Call) (w : World) :
  duplicate doc (called c w) = duplicate doc w.
Proof. reflexivity. Qed.

(** X5: when the body of an update of an existing record passes validation
    (so it carries a title), the record that is saved keeps [_id] and
    [createdAt], takes the title of the body, takes [description] and
    [merchant] from the body when present and keeps them otherwise, and
    takes [category] and [discountPercent] from the validated value, which
    holds the schema defaults "other" and 0 when the body leaves them out.
    If no other record has its (title, merchant) the answer is 200 with the
    record, stored under its identifier; otherwise the duplicate-key error of
    [save] goes to [next] and nothing is written. *)
Theorem updatePerk_merges (id : string) (fields : object) (perk : Perk)
    (w : World) :
  isValidObjectId id = true → perks w !! id = Some perk → fields ≠ [] →
  Joi.error (Joi.validate update_preferences perkSchema (Some fields)) = None →
  ∃ doc,
    _id doc = _id perk ∧ createdAt doc = createdAt perk
    ∧ get "title" fields = Some (JStr (title doc))
    ∧ description doc = as_string (description perk) (get "description" fields)
    ∧ merchant doc = as_string (merchant perk) (get "merchant" fields)
    ∧ category doc = as_string "other" (get "category" fields)
    ∧ category doc ∈ categories
    ∧ (0 <= discountPercent doc)%Q ∧ (discountPercent doc <= 100)%Q
    ∧ (get "discountPercent" fields = None → discountPercent doc = 0%Q)
    ∧ (∀ q, get "discountPercent" fields = Some (JNum q) →
            discountPercent doc = q)
    ∧ (duplicate doc w = false →
       updatePerk (Some id) (Some fields) w
       = (Response 200 (perk_body doc),
          with_perks (<[_id doc := doc]> (perks w))
            (called (save doc) (called (findById id) w))))
    ∧ (duplicate doc w = true →
       updatePerk (Some id) (Some fields) w
       = (Next DuplicateKeyError,
          called (save doc) (called (findById id) w))).
Proof.
  intros Hid Hperk Hfields Hv.
  rewrite (updatePerk_found id _ perk); [|done|done|by destruct fields].
  rewrite Hv. rewrite validate_update in Hv |- *.
  cbn [Joi.error Joi.value spread] in Hv |- *.
  destruct (flat_map _ perkSchema) eqn:Hall; [clear Hv|done].
  pose proof (λ child, flat_map_nil_inv _ _ child Hall) as Hkey.
  assert (∀ k s, (k, s) ∈ perkSchema →
            (Joi.validate_value update_preferences s (get k fields)).2 = []
            ∧ get k (Joi.validate_children update_preferences perkSchema
                       fields).1
              = (Joi.validate_value update_preferences s (get k fields)).1)
    as Hget.
  { intros k s Hin.
    destruct (validate_children_get update_preferences perkSchema fields k s
                perkSchema_NoDup) as [H1 H2]; [|done|done].
    by rewrite validate_children_collect. }
  clear Hkey Hall.
  destruct (Hget "title" _ ltac:(in_schema)) as [Ht2 Ht1].
  destruct (Hget "description" _ ltac:(in_schema)) as [Hd2 Hd1].
  destruct (Hget "category" _ ltac:(in_schema)) as [Hc2 Hc1].
  destruct (Hget "discountPercent" _ ltac:(in_schema)) as [Hq2 Hq1].
  destruct (Hget "merchant" _ ltac:(in_schema)) as [Hm2 Hm1].
  clear Hget.
  destruct (title_accepted _ _ Ht2) as (t & Ht & Ht' & _).
  destruct (category_accepted _ _ Hc2 eq_refl) as (c & Hc' & Hc & _).
  pose proof (category_value _ _ Hc2 eq_refl) as Hcv.
  destruct (discount_accepted _ _ Hq2 eq_refl)
    as (q & Hq' & Hq0 & Hq100 & Hqd).
  assert (∀ old item,
            (Joi.validate_value update_preferences (Joi.allow [""] Joi.str)
               item).2 = [] →
            as_string old
              (Joi.validate_value update_preferences (Joi.allow [""] Joi.str)
                 item).1
            = as_string old item) as Htext.
  { intros old item Hitem.
    destruct (text_accepted _ _ Hitem eq_refl) as [[-> ->]|(s & -> & ->)];
      done. }
  cbn zeta.
  rewrite Object_assign_get
    by (apply validate_children_NoDup, perkSchema_NoDup).
  rewrite Ht1, Ht', Hd1, Hc1, Hcv, Hq1, Hq', Hm1, !Htext by done.
  cbn [as_string as_number].
  match goal with |- context [save ?d] => exists d end.
  cbn [_id createdAt title description merchant category discountPercent].
  assert (c = as_string "other" (get "category" fields)) as Hceq
    by congruence.
  rewrite Hceq in Hc.
  repeat (split; [first [reflexivity | assumption]|]).
  split.
  { intros q' Hq''. rewrite Hq'' in Hq2, Hq'.
    rewrite (discount_value _ _ Hq2 eq_refl) in Hq'. congruence. }
  rewrite duplicate_called.
  split; by intros ->.
Qed.

(** ** Updates without a title *)

(** X6: an update of an existing record whose body has no title always
    fails: the answer is 400 "Validation failed" and the first detail says
    that "title" is required; the lookup is the only call to the model. *)
Theorem updatePerk_requires_title (id : string) (fields : object)
    (perk : Perk) (w : World) :
  isValidObjectId id = true → perks w !! id = Some perk → fields ≠ [] →
  get "title" fields = None →
  ∃ others,
    updatePerk (Some id) (Some fields) w
    = (Response 400
         (validation_body "Validation failed"
            (Joi.message
               {| Joi.path := "title"; Joi.type := Joi.any_required |}
             :: others)),
       called (findById id) w).
Proof.
  intros Hid Hperk Hfields Htitle.
  rewrite (updatePerk_found id _ perk); [|done|done|by destruct fields].
  rewrite validate_update. cbn [Joi.error].
  unfold perkSchema at 1. cbn [flat_map].
  unfold Joi.key_errors at 1. cbn [fst snd]. rewrite Htitle.
  cbn [Joi.validate_value fmap option_fmap option_map Joi.effective_presence
       Joi.flag_presence Joi.required Joi.flag_default Joi.min Joi.str
       map snd app].
  eexists. reflexivity.
Qed.

(** ** Unknown fields in an update *)

Lemma get_known_fields (k : string) (fields : object) :
  k ∈ perkSchema.*1 → get k (known_fields fields) = get k fields.
Proof.
  intros Hk. unfold known_fields, object.
  induction fields as [|[k' v] fields IH]; [done|].
  rewrite filter_cons. cbn [fst]. case_decide as Hk'; cbn [get].
  - by rewrite IH.
  - rewrite IH. by destruct (String.eqb_spec k k') as [->|].
Qed.

Lemma validate_children_ext p children (o o' : object) :
  (∀ k, k ∈ children.*1 → get k o = get k o') →
  Joi.validate_children p children o = Joi.validate_children p children o'.
Proof.
  induction children as [|[key s] rest IH]; [done|].
  intros Hget. rewrite !validate_children_cons.
  unfold Joi.key_errors. cbn [fst snd].
  rewrite (Hget key) by left.
  rewrite IH; [done|].
  intros k Hk. apply Hget. by right.
Qed.

(** X7: in an update, the fields the schema does not name are dropped
    ([stripUnknown]): as long as the body has a field the schema names, the
    update behaves exactly as if the other fields had not been sent. *)
Theorem updatePerk_ignores_unknown_fields (id : option string)
    (fields : object) (w : World) :
  known_fields fields ≠ [] →
  updatePerk id (Some fields) w = updatePerk id (Some (known_fields fields)) w.
Proof.
  intros Hknown.
  assert (Joi.validate update_preferences perkSchema (Some fields)
          = Joi.validate update_preferences perkSchema
              (Some (known_fields fields))) as Hv.
  { rewrite !validate_update.
    rewrite (validate_children_ext _ _ fields (known_fields fields))
      by (intros k Hk; by rewrite get_known_fields).
    f_equal. f_equal. unfold perkSchema. cbn [flat_map].
    unfold Joi.key_errors. cbn [fst snd].
    by rewrite !get_known_fields by compute_done. }
  unfold updatePerk. rewrite Hv.
  assert (fields ≠ []) as Hfields by (by intros ->).
  by destruct fields, (known_fields _).
Qed.

(** ** What a create can answer, and when it writes *)

(** X8: the possible outcomes of [createPerk].  Either it answers 201 with
    a record, which is then stored under an identifier that was free, after
    one [create] call; or it answers 400 without any call to the model, or
    409, or hands the model's validation error to [next] (a body that is
    undefined passes the schema and reaches the model without a title), and
    in these cases the collection keeps its contents. *)
Theorem createPerk_outcomes (body : option object) (w : World) :
  let reply := (createPerk body w).1 in
  let w' := (createPerk body w).2 in
  (∃ doc, reply = Response 201 (perk_body doc)
          ∧ perks w !! _id doc = None
          ∧ perks w' = <[_id doc := doc]> (perks w)
          ∧ trace w' = trace w ++ [create (spread (Joi.value
                (Joi.validate Joi.defaults perkSchema body)))])
  ∨ (((∃ m, reply = Response 400 (message_body m) ∧ trace w' = trace w)
      ∨ reply = Response 409 (message_body "Duplicate perk for this merchant")
      ∨ reply = Next ValidationError)
     ∧ perks w' = perks w).
Proof.
  cbn zeta. destruct body as [fields|].
  - destruct (Joi.error (Joi.validate Joi.defaults perkSchema (Some fields)))
      as [errors|] eqn:Hv.
    + rewrite (createPerk_rejected _ _ _ Hv). right. eauto.
    + rewrite (createPerk_after_validation _ _ Hv).
      destruct (createPerk_accepted _ w Hv)
        as (t & c & q & _ & _ & _ & _ & _ & _ & _ & ->).
      destruct (validate_accepted Joi.defaults _ _ eq_refl eq_refl Hv)
        as (-> & _ & _).
      destruct (bool_decide _) eqn:Hfree; cbn [orb fst snd].
      { right. auto. }
      destruct (duplicate _ w); cbn [fst snd].
      { right. auto. }
      left. eexists. split; [done|].
      apply bool_decide_eq_false in Hfree.
      split; [by apply eq_None_not_Some|done].
  - right. split; [|done]. right. right. reflexivity.
Qed.

(** ** A created perk is found by its title *)

Lemma filterPerks_found (T : string) (w : World) :
  T ≠ "" →
  filterPerks (Some T) w
  = (Response 200
       (perks_body
          (merge_sort newest_first
             (filter (λ p, title p = T) (documents w)))),
     called (find (Some T)) w).
Proof. intros HT. unfold filterPerks, try_catch. by destruct T. Qed.

(** X9: a perk that [createPerk] answered with 201 is listed by
    [filterPerks] on its title, and everything that listing holds has that
    title. *)
Theorem createPerk_then_filterPerks (fields : object) (w : World)
    (doc : Perk) (w' : World) :
  createPerk (Some fields) w = (Response 201 (perk_body doc), w') →
  ∃ found,
    (filterPerks (Some (title doc)) w').1 = Response 200 (perks_body found)
    ∧ doc ∈ found
    ∧ ∀ p, p ∈ found → title p = title doc.
Proof.
  intros Hcreate.
  pose proof (createPerk_created _ _ _ _ Hcreate)
    as (Hv & Ht & _ & _ & _ & _ & _ & _ & Hperks & _).
  destruct (createPerk_accepted _ w Hv) as (t & c & q & Ht' & Hlen & _).
  assert (title doc ≠ "") as Hne.
  { rewrite Ht in Ht'. injection Ht' as Heq. rewrite Heq.
    intros ->. simpl in Hlen. lia. }
  rewrite (filterPerks_found _ _ Hne). eexists. split; [done|].
  split.
  - rewrite merge_sort_Permutation. apply list_elem_of_filter. split; [done|].
    apply documents_lookup. exists (_id doc).
    by rewrite Hperks, lookup_insert_eq.
  - intros p. rewrite merge_sort_Permutation.
    by intros [? _]%list_elem_of_filter.
Qed.

(** ** The order of a listing *)

(** X10: after two successful creates, [getAllPerks] lists the perk created
    second before the perk created first (creation times come from the
    store's clock, which advances at every create); when the collection was
    empty before, the listing is exactly the second perk, then the first. *)
Theorem getAllPerks_after_two_creates (a b : object) (w : World)
    (docA docB : Perk) (w1 w2 : World) :
  createPerk (Some a) w = (Response 201 (perk_body docA), w1) →
  createPerk (Some b) w1 = (Response 201 (perk_body docB), w2) →
  ∃ found before between after,
    (getAllPerks w2).1 = Response 200 (perks_body found)
    ∧ found = before ++ docB :: between ++ docA :: after
    ∧ (perks w = ∅ → found = [docB; docA]).
Proof.
  intros HA HB.
  apply createPerk_created in HA
    as (_ & _ & _ & _ & _ & HtA & HfreeA & _ & HperksA & HclockA).
  apply createPerk_created in HB
    as (_ & _ & _ & _ & _ & HtB & HfreeB & _ & HperksB & _).
  set (found := merge_sort newest_first (documents w2)).
  assert (_id docA ≠ _id docB) as Hids.
  { intros Heq. by rewrite HperksA, <- Heq, lookup_insert_eq in HfreeB. }
  assert (docA ≠ docB) as Hdocs by congruence.
  assert (docB ∈ found) as HinB.
  { unfold found. rewrite merge_sort_Permutation. apply documents_lookup.
    exists (_id docB). by rewrite HperksB, lookup_insert_eq. }
  assert (docA ∈ found) as HinA.
  { unfold found. rewrite merge_sort_Permutation. apply documents_lookup.
    exists (_id docA).
    by rewrite HperksB, lookup_insert_ne, HperksA, lookup_insert_eq. }
  assert (StronglySorted newest_first found) as Hsorted
    by (apply StronglySorted_merge_sort; apply _).
  apply list_elem_of_split in HinB as (before & rest & Hfound).
  assert (docA ∈ rest) as HA.
  { rewrite Hfound in HinA, Hsorted.
    apply elem_of_app in HinA as [HinA|HinA].
    - pose proof (StronglySorted_app_1_elem_of _ _ _ docA docB Hsorted HinA
                    ltac:(left)) as Hle.
      unfold newest_first in Hle. lia.
    - by apply elem_of_cons in HinA as [?|?]. }
  apply list_elem_of_split in HA as (between & after & ->).
  exists found, before, between, after.
  split; [done|]. split; [done|].
  intros Hempty.
  assert (length found = 2) as Hlen.
  { unfold found. rewrite merge_sort_Permutation. unfold documents.
    rewrite length_fmap, length_map_to_list, HperksB, HperksA, Hempty.
    rewrite map_size_insert_None, map_size_insert_None, map_size_empty;
      [done|done|].
    by rewrite lookup_insert_ne. }
  rewrite Hfound in Hlen |- *. rewrite !length_app in Hlen. simpl in Hlen.
  rewrite !length_app in Hlen. simpl in Hlen.
  destruct before, between, after; simpl in Hlen; try lia. done.
Qed.

Lemma validate_passes p children (o : object) :
  (Joi.validate_children p children o).2 = [] →
  (∀ k, k ∈ keys o → k ∈ children.*1) →
  Joi.error (Joi.validate p children (Some o)) = None.
Proof.
  intros Hnil Hkeys. unfold Joi.validate, Joi.validate_unknown.
  destruct (Joi.validate_children p children o) as [o1 errors1].
  cbn [snd] in Hnil. subst errors1.
  assert (filter (λ kv : string * jval, kv.1 ∉ children.*1) o = []) as ->.
  { destruct (filter _ o) as [|[k v] l] eqn:Hfilter; [done|].
    assert ((k, v) ∈ filter (λ kv : string * jval, kv.1 ∉ children.*1) o)
      as [Hnot Hin]%list_elem_of_filter by (rewrite Hfilter; left).
    destruct Hnot. apply Hkeys, list_elem_of_fmap. by exists (k, v). }
  by destruct (Joi.abortEarly p), (Joi.stripUnknown p), (Joi.allowUnknown p).
Qed.

Lemma text_passes p (item : option jval) :
  Joi.presence p = Joi.optional →
  item = None ∨ (∃ s, item = Some (JStr s)) →
  (Joi.validate_value p (Joi.allow [""] Joi.str) item).2 = [].
Proof.
  intros Hp [->|[s ->]];
    unfold Joi.validate_value, Joi.effective_presence, Joi.in_valids; cbn.
  - by rewrite Hp.
  - rewrite Hp, andb_false_r. case_bool_decide as Hin; [done|].
    destruct s; [|done]. destruct Hin. left.
Qed.

Lemma title_passes p (t : string) :
  2 ≤ String.length t →
  (Joi.validate_value p (Joi.required (Joi.min 2 Joi.str))
     (Some (JStr t))).2 = [].
Proof.
  intros Hlen.
  unfold Joi.validate_value, Joi.effective_presence, Joi.in_valids. cbn.
  rewrite bool_decide_eq_false_2 by apply not_elem_of_nil.
  rewrite andb_false_r.
  destruct t as [|c t]; [simpl in Hlen; lia|]. cbn.
  destruct (Z.leb_spec 2 (Z.of_nat (S (String.length t)))); [done|].
  simpl in Hlen. lia.
Qed.

Lemma category_passes p (item : option jval) :
  Joi.presence p = Joi.optional →
  item = None ∨ (∃ c, item = Some (JStr c) ∧ c ∈ categories) →
  (Joi.validate_value p
     (Joi.default (JStr "other") (Joi.valid categories Joi.str)) item).2 = [].
Proof.
  intros Hp [->|(c & -> & Hc)];
    unfold Joi.validate_value, Joi.effective_presence, Joi.in_valids; cbn.
  - by rewrite Hp.
  - rewrite Hp. by rewrite bool_decide_eq_true_2.
Qed.

Lemma discount_passes p (item : option jval) :
  Joi.presence p = Joi.optional →
  item = None
  ∨ (∃ q, item = Some (JNum q) ∧ (0 <= q)%Q ∧ (q <= 100)%Q) →
  (Joi.validate_value p
     (Joi.default (JNum 0) (Joi.max 100 (Joi.min 0 Joi.num))) item).2 = [].
Proof.
  intros Hp [->|(q & -> & H0 & H100)];
    unfold Joi.validate_value, Joi.effective_presence, Joi.in_valids; cbn.
  - by rewrite Hp.
  - rewrite Hp, andb_false_r.
    assert (Qle_bool q (inject_Z Joi.MAX_SAFE_INTEGER) = true) as ->.
    { apply Qle_bool_iff. apply (Qle_trans _ 100); [exact H100|].
      by compute. }
    assert (Qle_bool (inject_Z (- Joi.MAX_SAFE_INTEGER)) q = true) as ->.
    { apply Qle_bool_iff. apply (Qle_trans _ 0); [|exact H0].
      by compute. }
    cbn.
    assert (Qle_bool (inject_Z 0) q = true) as -> by by apply Qle_bool_iff.
    assert (Qle_bool q (inject_Z 100) = true) as -> by by apply Qle_bool_iff.
    done.
Qed.

(** X11: a field set with a title of at least two characters, a category
    among the five when present, a discount between 0 and 100 when present,
    string description and merchant when present and no other key passes the
    schema; [createPerk] then answers 201 with a record of that title, or
    409 when the identifier is taken or a stored perk has the same title and
    merchant. *)
Theorem createPerk_accepts (fields : object) (w : World) :
  acceptable fields →
  Joi.error (Joi.validate Joi.defaults perkSchema (Some fields)) = None
  ∧ ((∃ doc w',
        createPerk (Some fields) w = (Response 201 (perk_body doc), w')
        ∧ get "title" fields = Some (JStr (title doc)))
     ∨ ((createPerk (Some fields) w).1
          = Response 409 (message_body "Duplicate perk for this merchant")
        ∧ (is_Some (perks w !! ObjectId (clock w))
           ∨ ∃ p, p ∈ documents w
                  ∧ get "title" fields = Some (JStr (title p))
                  ∧ as_string "" (get "merchant" fields) = merchant p))).
Proof.
  intros ((t & Ht & Hlen) & Hd & Hc & Hq & Hm & Hkeys).
  assert (Joi.error (Joi.validate Joi.defaults perkSchema (Some fields))
          = None) as Hv.
  { apply validate_passes; [|done].
    unfold perkSchema.
    rewrite !validate_children_cons. unfold Joi.key_errors. cbn [fst snd].
    rewrite Ht, title_passes, text_passes, category_passes, discount_passes,
      text_passes by done.
    done. }
  split; [done|].
  rewrite (createPerk_after_validation _ _ Hv).
  destruct (createPerk_accepted _ w Hv)
    as (t' & c & q & Ht' & _ & _ & _ & _ & _ & _ & ->).
  destruct (bool_decide _) eqn:Hfree; cbn [orb].
  { right. split; [done|]. left. by apply bool_decide_eq_true in Hfree. }
  destruct (duplicate _ w) eqn:Hdup.
  - right. split; [done|].
    apply existsb_exists in Hdup as (p & Hin & Hp).
    apply list_elem_of_In in Hin.
    apply andb_true_iff in Hp as [[_ Hpt]%andb_true_iff Hpm].
    apply String.eqb_eq in Hpt, Hpm. cbn [title merchant] in Hpt, Hpm.
    right. exists p. split; [done|]. by rewrite Hpt, Hpm.
  - left. eexists _, _. split; [done|]. done.
Qed.

(** ** Handlers that only read *)

(** X12: [filterPerks], [getPerk] and [getAllPerks] never change the
    collection or the clock, whatever the request. *)
Theorem reading_handlers_do_not_write (title : option string) (id : string)
    (w : World) :
  (perks (filterPerks title w).2 = perks w
   ∧ clock (filterPerks title w).2 = clock w)
  ∧ (perks (getPerk id w).2 = perks w ∧ clock (getPerk id w).2 = clock w)
  ∧ (perks (getAllPerks w).2 = perks w ∧ clock (getAllPerks w).2 = clock w).
Proof.
  split; [|split].
  - unfold filterPerks, try_catch. by destruct (truthy title).
  - by rewrite getPerk_cases.
  - done.
Qed.

(** ** When an update writes *)

(** X13: [updatePerk] writes only when it answers 200: for every request,
    either the collection keeps its contents and the answer is not a 200
    with a record, or the answer is 200 with a record that has the
    identifier of the perk that was looked up, and the collection differs
    only by that record being stored under its identifier. *)
Theorem updatePerk_writes_only_on_200 (id : option string)
    (body : option object) (w : World) :
  let reply := (updatePerk id body w).1 in
  let w' := (updatePerk id body w).2 in
  (perks w' = perks w ∧ ∀ doc, reply ≠ Response 200 (perk_body doc))
  ∨ (∃ perk doc,
       perks w !! default "" id = Some perk
       ∧ _id doc = _id perk
       ∧ reply = Response 200 (perk_body doc)
       ∧ perks w' = <[_id doc := doc]> (perks w)).
Proof.
  cbn zeta.
  destruct (truthy id) eqn:Hid.
  2:{ left. unfold updatePerk, try_catch. by rewrite Hid. }
  destruct (no_fields body) eqn:Hbody.
  { left. unfold updatePerk, try_catch. by rewrite Hid, Hbody. }
  destruct id as [id|]; [|done]. change (default "" (Some id)) with id.
  destruct (isValidObjectId id) eqn:Hvalid.
  2:{ left. unfold updatePerk, try_catch. rewrite Hid, Hbody. cbn [negb].
      change (default "" (Some id)) with id.
      unfold mbind, Op_bind, Perk_findById. by rewrite Hvalid. }
  destruct (perks w !! id) as [perk|] eqn:Hperk.
  2:{ left. unfold updatePerk, try_catch. rewrite Hid, Hbody. cbn [negb].
      change (default "" (Some id)) with id.
      unfold mbind, Op_bind, Perk_findById. by rewrite Hvalid, Hperk. }
  rewrite (updatePerk_found id body perk) by done.
  destruct (Joi.error _) as [errors|]; [by left|].
  cbn zeta. destruct (duplicate _ _); [by left|].
  right. eexists perk, _. split; [done|]. split; [|done].
  destruct body as [fields|]; [|done].
  rewrite validate_update. cbn [Joi.value spread].
  by rewrite Object_assign_get
    by (apply validate_children_NoDup, perkSchema_NoDup).
Qed.

(** ** What a successful create returns *)




(** ** How many failures a create reports *)

Lemma validate_value_prefs p q s item :
  Joi.abortEarly p = Joi.abortEarly q → Joi.presence p = Joi.presence q →
  Joi.validate_value p s item = Joi.validate_value q s item.
Proof.
  intros Ha Hp. unfold Joi.validate_value, Joi.effective_presence.
  by rewrite Ha, Hp.
Qed.

Lemma validate_children_prefs p q children o :
  Joi.abortEarly p = Joi.abortEarly q → Joi.presence p = Joi.presence q →
  Joi.validate_children p children o = Joi.validate_children q children o.
Proof.
  intros Ha Hp. induction children as [|[key s] rest IH]; [done|].
  rewrite !validate_children_cons. unfold Joi.key_errors. cbn [fst snd].
  by rewrite IH, Ha, (validate_value_prefs p q).
Qed.

Lemma validate_collecting (fields : object) :
  Joi.error (Joi.validate collecting perkSchema (Some fields))
  = match flat_map (Joi.key_errors update_preferences fields) perkSchema
          ++ unknown_errors fields with
    | [] => None
    | errors => Some errors
    end.
Proof.
  pose proof (validate_children_collect collecting perkSchema fields eq_refl)
    as Hc.
  unfold Joi.validate, Joi.validate_unknown, unknown_errors.
  rewrite (validate_children_prefs collecting update_preferences) in Hc |- *
    by done.
  destruct (Joi.validate_children update_preferences perkSchema fields)
    as [o1 errors1].
  cbn [snd] in Hc. subst errors1. cbn.
  unfold Joi.key_errors.
  by rewrite !(validate_value_prefs collecting update_preferences).
Qed.

Lemma validate_first (fields : object) first others :
  Joi.error (Joi.validate collecting perkSchema (Some fields))
    = Some (first :: others) →
  Joi.error (Joi.validate Joi.defaults perkSchema (Some fields))
    = Some [first].
Proof.
  rewrite validate_collecting. intros Hall.
  pose proof (validate_children_abort Joi.defaults update_preferences
                perkSchema fields eq_refl eq_refl eq_refl) as Habort.
  rewrite (validate_children_collect update_preferences) in Habort by done.
  unfold Joi.validate, Joi.validate_unknown.
  destruct (Joi.validate_children Joi.defaults perkSchema fields)
    as [o1 errors1].
  cbn [snd] in Habort. subst errors1.
  unfold unknown_errors in Hall.
  destruct (flat_map _ perkSchema) as [|e es];
    [destruct (map _ _) as [|u us]|]; cbn in Hall |- *;
    rewrite ?take_0; congruence.
Qed.

(** C10 (amended): when validation of a creation input finds two or more
    failures (those of the keys of the schema in the order of the schema,
    then one for each field the schema does not name), the 400 answer of
    [createPerk] carries the message of the first one only.  [updatePerk] on
    the same fields (for an existing record) reports all the failures of the
    keys of the schema, and none for the fields the schema does not name:
    when those are the only failures, it reports no validation failure. *)
Theorem createPerk_first_error_only (fields : object) (w : World)
    (first : Joi.detail) (others : list Joi.detail) :
  Joi.error (Joi.validate collecting perkSchema (Some fields))
    = Some (first :: others) →
  others ≠ [] →
  createPerk (Some fields) w
    = (Response 400 (message_body (Joi.message first)), w)
  ∧ first :: others
    = flat_map (Joi.key_errors update_preferences fields) perkSchema
      ++ unknown_errors fields
  ∧ ∀ id perk,
      isValidObjectId id = true → perks w !! id = Some perk →
      match flat_map (Joi.key_errors update_preferences fields) perkSchema
      with
      | [] =>
          ∀ details,
            (updatePerk (Some id) (Some fields) w).1
              ≠ Response 400 (validation_body "Validation failed" details)
      | errors =>
          updatePerk (Some id) (Some fields) w
          = (Response 400
               (validation_body "Validation failed"
                  (map Joi.message errors)),
             called (findById id) w)
      end.
Proof.
  intros Hall Hothers.
  split.
  { apply (createPerk_rejected fields w [first]).
    by apply (validate_first fields first others). }
  assert (fields ≠ []) as Hfields.
  { intros ->. vm_compute in Hall. congruence. }
  rewrite validate_collecting in Hall.
  split.
  { destruct (_ ++ _); congruence. }
  intros id perk Hid Hperk.
  rewrite (updatePerk_found id _ perk); [|done|done|by destruct fields].
  rewrite validate_collect by done.
  destruct (flat_map _ perkSchema) as [|e es]; [|done].
  intros details. cbn zeta. by destruct (duplicate _ _).
Qed.

End handlers.

(** * Examples

    The properties above, applied to concrete requests and worlds, and the
    requests on which the code departs from what was expected of it. *)

#[global] Existing Instance no_numeric_strings.

Lemma filterPerks_missing_title_witness :
  filterPerks (Some "") one_perk
    = (Response 400 (message_body "Title query parameter is required"),
       one_perk)
  ∧ signal (filterPerks (Some "") one_perk).1 = BadRequest
  ∧ trace (filterPerks (Some "") one_perk).2 = trace one_perk.
Proof.
  apply (filterPerks_missing_title (Some "") one_perk). right. reflexivity.
Defined.

(** The message the specification quotes for a missing identifier is not the
    one the handler sends: the handler's message starts with a capital. *)
Lemma updatePerk_missing_id_message_differs :
  (updatePerk None (Some [("description", JStr "new")]) one_perk).1
    ≠ Response 400 (message_body "missing id parameter").
Proof. vm_compute. discriminate. Qed.

Lemma updatePerk_guards_witness :
  updatePerk None None one_perk
    = (Response 400 (message_body "Missing id parameter"), one_perk)
  ∧ updatePerk (Some (ObjectId 0)) (Some []) one_perk
    = (Response 400 (message_body "No update fields provided"), one_perk).
Proof.
  split.
  - apply (updatePerk_guards None None one_perk). left. reflexivity.
  - apply (updatePerk_guards (Some (ObjectId 0)) (Some []) one_perk).
    + reflexivity.
    + right. reflexivity.
Defined.

Lemma getPerk_deletePerk_by_id_witness :
  ((getPerk "not-an-id" one_perk).1 = Next CastError
   ∧ (deletePerk "not-an-id" one_perk).1 = Next CastError
   ∧ perks (getPerk "not-an-id" one_perk).2 = perks one_perk
   ∧ perks (deletePerk "not-an-id" one_perk).2 = perks one_perk)
  ∧ ((getPerk (ObjectId 7) one_perk).1
       = Response 404 (message_body "Perk not found")
     ∧ (deletePerk (ObjectId 7) one_perk).1
       = Response 404 (message_body "Perk not found")
     ∧ signal (getPerk (ObjectId 7) one_perk).1 = NotFound
     ∧ signal (deletePerk (ObjectId 7) one_perk).1 = NotFound).
Proof.
  split.
  - apply (getPerk_deletePerk_by_id "not-an-id" one_perk). reflexivity.
  - apply (getPerk_deletePerk_by_id (ObjectId 7) one_perk).
    + reflexivity.
    + vm_compute. reflexivity.
Defined.



Lemma createPerk_short_title_witness :
  ∃ d, Joi.path d = "title"
       ∧ createPerk (Some [("title", JStr "x"); ("merchant", JStr "FitCo")])
           one_perk
         = (Response 400 (message_body (Joi.message d)), one_perk).
Proof.
  apply (createPerk_short_title
           [("title", JStr "x"); ("merchant", JStr "FitCo")] one_perk).
  right. exists "x". split; [reflexivity|simpl; lia].
Defined.

(** The conflict message the specification quotes is not the one the handler
    sends: the handler's message starts with a capital. *)
Lemma createPerk_duplicate_message_differs :
  (createPerk (Some gym_pass) one_perk).1
    ≠ Response 409 (message_body "duplicate perk for this merchant").
Proof. vm_compute. discriminate. Qed.

Lemma createPerk_conflict_witness :
  let after := (createPerk (Some gym_pass) empty_world).2 in
  (createPerk (Some gym_pass) after).1
    = Response 409 (message_body "Duplicate perk for this merchant")
  ∧ signal (createPerk (Some gym_pass) after).1 = Conflict
  ∧ perks (createPerk (Some gym_pass) after).2 = perks after.
Proof.
  destruct createPerk_conflict as [_ H].
  apply (H gym_pass gym_pass empty_world
           (Build_Perk (ObjectId 0) "Gym pass" "" "fitness" 20 "FitCo" 0)).
  - vm_compute. reflexivity.
  - vm_compute. reflexivity.
  - reflexivity.
  - reflexivity.
Defined.

Lemma filterPerks_exact_title_witness :
  ∃ found,
    (filterPerks (Some "Gym pass") three_perks
       = (Response 200 (perks_body found),
          called (find (Some "Gym pass")) three_perks)
     ∧ found ≡ₚ filter (λ p, title p = "Gym pass") (documents three_perks)
     ∧ (∀ p, p ∈ found
             ↔ (∃ id, perks three_perks !! id = Some p)
               ∧ title p = "Gym pass")
     ∧ (∀ i j p q, i < j → found !! i = Some p → found !! j = Some q →
                   createdAt q ≤ createdAt p)
     ∧ ((∀ p, p ∈ documents three_perks → title p ≠ "Gym pass") →
        found = []))
    ∧ found = [late_gym_pass_perk; gym_pass_perk]
    ∧ second_title_perk ∉ found.
Proof.
  destruct (filterPerks_exact_title "Gym pass" three_perks) as (found & H);
    [discriminate|].
  exists found. split; [exact H|].
  destruct H as (Hreply & _).
  vm_compute in Hreply. injection Hreply as <-.
  split; [reflexivity|].
  intros Hin.
  repeat (apply elem_of_cons in Hin as [Hin|Hin]; [discriminate|]).
  by apply elem_of_nil in Hin.
Defined.

Lemma updatePerk_description_only_witness :
  updatePerk (Some (ObjectId 0)) (Some [("description", JStr "new")]) one_perk
  = (Response 400
       (validation_body "Validation failed"
          [Joi.message {| Joi.path := "title"; Joi.type := Joi.any_required |}]),
     called (findById (ObjectId 0)) one_perk).
Proof.
  apply (updatePerk_description_only (ObjectId 0) "new"
           (Build_Perk (ObjectId 0) "Gym pass" "" "fitness" 20 "FitCo" 0)).
  - reflexivity.
  - vm_compute. reflexivity.
Defined.

Lemma updatePerk_validation_failure_witness :
  let fields := [("title", JStr "x"); ("discountPercent", JNum 150)] in
  let errors :=
    [ {| Joi.path := "title"; Joi.type := Joi.string_min 2 |};
      {| Joi.path := "discountPercent"; Joi.type := Joi.number_max 100 |} ] in
  updatePerk (Some (ObjectId 0)) (Some fields) one_perk
    = (Response 400
         (validation_body "Validation failed" (map Joi.message errors)),
       called (findById (ObjectId 0)) one_perk)
  ∧ signal (updatePerk (Some (ObjectId 0)) (Some fields) one_perk).1
    = BadRequest
  ∧ errors = flat_map (Joi.key_errors update_preferences fields) perkSchema
  ∧ perks (updatePerk (Some (ObjectId 0)) (Some fields) one_perk).2
    = perks one_perk.
Proof.
  apply (updatePerk_validation_failure (ObjectId 0) _
           (Build_Perk (ObjectId 0) "Gym pass" "" "fitness" 20 "FitCo" 0)).
  - reflexivity.
  - vm_compute. reflexivity.
  - discriminate.
  - vm_compute. reflexivity.
Defined.

(** With a valid title and two fields the schema does not name, [createPerk]
    reports the first of the two failures, and [updatePerk] reports none: it
    drops the two fields and answers 200. *)
Lemma updatePerk_unknown_fields_not_reported :
  let fields :=
    [("title", JStr "Gym pass"); ("stock", JNum 3); ("colour", JStr "red")] in
  createPerk (Some fields) one_perk
    = (Response 400
         (message_body
            (Joi.message
               {| Joi.path := "stock"; Joi.type := Joi.object_unknown |})),
       one_perk)
  ∧ (updatePerk (Some (ObjectId 0)) (Some fields) one_perk).1
    = Response 200
        (perk_body
           {| _id := ObjectId 0; title := "Gym pass"; description := "";
              category := "other"; discountPercent := 0; merchant := "FitCo";
              createdAt := 0 |}).
Proof. vm_compute. split; reflexivity. Qed.

Lemma createPerk_first_error_only_witness :
  let fields := [("title", JStr "x"); ("discountPercent", JNum 150)] in
  let first := {| Joi.path := "title"; Joi.type := Joi.string_min 2 |} in
  let others :=
    [{| Joi.path := "discountPercent"; Joi.type := Joi.number_max 100 |}] in
  createPerk (Some fields) one_perk
    = (Response 400 (message_body (Joi.message first)), one_perk)
  ∧ first :: others
    = flat_map (Joi.key_errors update_preferences fields) perkSchema
      ++ unknown_errors fields
  ∧ ∀ id perk,
      isValidObjectId id = true → perks one_perk !! id = Some perk →
      match flat_map (Joi.key_errors update_preferences fields) perkSchema
      with
      | [] =>
          ∀ details,
            (updatePerk (Some id) (Some fields) one_perk).1
              ≠ Response 400 (validation_body "Validation failed" details)
      | errors =>
          updatePerk (Some id) (Some fields) one_perk
          = (Response 400
               (validation_body "Validation failed"
                  (map Joi.message errors)),
             called (findById id) one_perk)
      end.
Proof.
  apply (createPerk_first_error_only
           [("title", JStr "x"); ("discountPercent", JNum 150)] one_perk).
  - vm_compute. reflexivity.
  - discriminate.
Defined.

Lemma createPerk_then_getPerk_witness :
  let doc := Build_Perk (ObjectId 0) "Gym pass" "" "fitness" 20 "FitCo" 0 in
  let w' := (createPerk (Some gym_pass) empty_world).2 in
  isValidObjectId (_id doc) = true
  ∧ getPerk (_id doc) w'
    = (Response 200 (perk_body doc), called (findById (_id doc)) w')
  ∧ getPerk (_id doc) empty_world
    = (Response 404 (message_body "Perk not found"),
       called (findById (_id doc)) empty_world)
  ∧ ∀ id, id ≠ _id doc → perks w' !! id = perks empty_world !! id.
Proof.
  apply (createPerk_then_getPerk gym_pass empty_world).
  vm_compute. reflexivity.
Defined.

Lemma deletePerk_removes_witness :
  let id := ObjectId 0 in
  let w' := (deletePerk id one_perk).2 in
  (deletePerk id one_perk).1 = Response 200 ok_body
  ∧ perks w' = delete id (perks one_perk)
  ∧ (∀ other, other ≠ id → perks w' !! other = perks one_perk !! other)
  ∧ (getPerk id w').1 = Response 404 (message_body "Perk not found")
  ∧ (deletePerk id w').1 = Response 404 (message_body "Perk not found").
Proof.
  apply (deletePerk_removes (ObjectId 0)
           (Build_Perk (ObjectId 0) "Gym pass" "" "fitness" 20 "FitCo" 0)
           one_perk).
  - reflexivity.
  - vm_compute. reflexivity.
Defined.

Lemma updatePerk_lookup_failures_witness :
  (updatePerk (Some "not-an-id") (Some gym_pass) one_perk
     = (Response 400 (message_body "Invalid id format"),
        called (findById "not-an-id") one_perk))
  ∧ (updatePerk (Some (ObjectId 7)) (Some gym_pass) one_perk
       = (Response 404 (message_body "Perk not found"),
          called (findById (ObjectId 7)) one_perk)).
Proof.
  split.
  - apply (updatePerk_lookup_failures "not-an-id" (Some gym_pass) one_perk);
      [discriminate|reflexivity|reflexivity].
  - apply (updatePerk_lookup_failures (ObjectId 7) (Some gym_pass) one_perk);
      [discriminate|reflexivity|reflexivity|vm_compute; reflexivity].
Defined.

Lemma updatePerk_merges_witness :
  let fields := [("title", JStr "Gym pass"); ("description", JStr "new")] in
  let perk := Build_Perk (ObjectId 0) "Gym pass" "" "fitness" 20 "FitCo" 0 in
  ∃ doc,
    _id doc = _id perk ∧ createdAt doc = createdAt perk
    ∧ get "title" fields = Some (JStr (title doc))
    ∧ description doc = as_string (description perk) (get "description" fields)
    ∧ merchant doc = as_string (merchant perk) (get "merchant" fields)
    ∧ category doc = as_string "other" (get "category" fields)
    ∧ category doc ∈ categories
    ∧ (0 <= discountPercent doc)%Q ∧ (discountPercent doc <= 100)%Q
    ∧ (get "discountPercent" fields = None → discountPercent doc = 0%Q)
    ∧ (∀ q, get "discountPercent" fields = Some (JNum q) →
            discountPercent doc = q)
    ∧ (duplicate doc one_perk = false →
       updatePerk (Some (ObjectId 0)) (Some fields) one_perk
       = (Response 200 (perk_body doc),
          with_perks (<[_id doc := doc]> (perks one_perk))
            (called (save doc) (called (findById (ObjectId 0)) one_perk))))
    ∧ (duplicate doc one_perk = true →
       updatePerk (Some (ObjectId 0)) (Some fields) one_perk
       = (Next DuplicateKeyError,
          called (save doc) (called (findById (ObjectId 0)) one_perk))).
Proof.
  apply (updatePerk_merges (ObjectId 0)
           [("title", JStr "Gym pass"); ("description", JStr "new")]
           (Build_Perk (ObjectId 0) "Gym pass" "" "fitness" 20 "FitCo" 0)
           one_perk).
  - reflexivity.
  - vm_compute. reflexivity.
  - discriminate.
  - vm_compute. reflexivity.
Defined.

Lemma updatePerk_requires_title_witness :
  ∃ others,
    updatePerk (Some (ObjectId 0)) (Some [("discountPercent", JNum 50)])
      one_perk
    = (Response 400
         (validation_body "Validation failed"
            (Joi.message
               {| Joi.path := "title"; Joi.type := Joi.any_required |}
             :: others)),
       called (findById (ObjectId 0)) one_perk).
Proof.
  apply (updatePerk_requires_title (ObjectId 0) _
           (Build_Perk (ObjectId 0) "Gym pass" "" "fitness" 20 "FitCo" 0)).
  - reflexivity.
  - vm_compute. reflexivity.
  - discriminate.
  - reflexivity.
Defined.

Lemma updatePerk_ignores_unknown_fields_witness :
  let fields :=
    [("stock", JNum 3); ("title", JStr "Gym pass"); ("_id", JStr "x")] in
  updatePerk (Some (ObjectId 0)) (Some fields) one_perk
  = updatePerk (Some (ObjectId 0)) (Some [("title", JStr "Gym pass")])
      one_perk.
Proof.
  apply (updatePerk_ignores_unknown_fields (Some (ObjectId 0))
           [("stock", JNum 3); ("title", JStr "Gym pass"); ("_id", JStr "x")]
           one_perk).
  vm_compute. discriminate.
Defined.

Lemma createPerk_then_filterPerks_witness :
  let doc := Build_Perk (ObjectId 0) "Gym pass" "" "fitness" 20 "FitCo" 0 in
  ∃ found,
    (filterPerks (Some (title doc))
       (createPerk (Some gym_pass) empty_world).2).1
      = Response 200 (perks_body found)
    ∧ doc ∈ found
    ∧ ∀ p, p ∈ found → title p = title doc.
Proof.
  apply (createPerk_then_filterPerks gym_pass empty_world).
  vm_compute. reflexivity.
Defined.

Lemma getAllPerks_after_two_creates_witness :
  let b := [("title", JStr "Laptop deal"); ("category", JStr "tech")] in
  let docA := Build_Perk (ObjectId 0) "Gym pass" "" "fitness" 20 "FitCo" 0 in
  let docB := Build_Perk (ObjectId 1) "Laptop deal" "" "tech" 0 "" 1 in
  let w1 := (createPerk (Some gym_pass) empty_world).2 in
  let w2 := (createPerk (Some b) w1).2 in
  ∃ found before between after,
    (getAllPerks w2).1 = Response 200 (perks_body found)
    ∧ found = before ++ docB :: between ++ docA :: after
    ∧ (perks empty_world = ∅ → found = [docB; docA]).
Proof.
  apply (getAllPerks_after_two_creates gym_pass
           [("title", JStr "Laptop deal"); ("category", JStr "tech")]
           empty_world _ _ (createPerk (Some gym_pass) empty_world).2).
  - vm_compute. reflexivity.
  - vm_compute. reflexivity.
Defined.

Lemma createPerk_accepts_witness :
  Joi.error (Joi.validate Joi.defaults perkSchema (Some gym_pass)) = None
  ∧ ((∃ doc w',
        createPerk (Some gym_pass) empty_world
          = (Response 201 (perk_body doc), w')
        ∧ get "title" gym_pass = Some (JStr (title doc)))
     ∨ ((createPerk (Some gym_pass) empty_world).1
          = Response 409 (message_body "Duplicate perk for this merchant")
        ∧ (is_Some (perks empty_world !! ObjectId (clock empty_world))
           ∨ ∃ p, p ∈ documents empty_world
                  ∧ get "title" gym_pass = Some (JStr (title p))
                  ∧ as_string "" (get "merchant" gym_pass) = merchant p))).
Proof.
  apply (createPerk_accepts gym_pass empty_world).
  unfold acceptable. repeat split.
  - exists "Gym pass". split; [reflexivity|simpl; lia].
  - left. reflexivity.
  - right. exists "fitness". split; [reflexivity|]. vm_compute.
    right. right. right. left.
  - right. exists 20%Q. split; [reflexivity|].
    split; unfold Qle; simpl; lia.
  - right. exists "FitCo". reflexivity.
  - intros k Hk. unfold gym_pass, keys in Hk. simpl in Hk.
    repeat (apply elem_of_cons in Hk as [->|Hk]; [compute_done|]).
    by apply elem_of_nil in Hk.
Defined.
